(** * Voxfile: the VOX decoder of tbogdala/voxfile

    A shallow embedding of [voxfile.go]: the header check and the recursive
    chunk reader of [Decode], the palette materializer [instancePalette] and
    the built-in [defaultPalette] table, followed by the properties of the
    decoder.

    Conventions.
    - [uint8] and [uint32] values are [Z] with the wrap-around of Go's
      unsigned arithmetic written out ([wrap32]).
    - The input is a [*bufio.Reader]; it is modelled by the bytes it has not
      delivered yet.  [Bufio.Read] is the [Read] method of [bufio.Reader] on
      a reader whose unread bytes are all available to one call (an
      in-memory input, or a file that fits the reader's buffer): it
      delivers [min (len p) remaining] bytes and fails with [EOF] only when
      nothing is left.  [Binary.ReadUint32] and [Binary.ReadUint8] are
      [encoding/binary.Read] at these two types, which goes through
      [io.ReadFull].
    - The header check is also given on a reader with any delivery
      ([BufReader], [DecodeOn]), where a [Read] returns what one [Read] of
      the underlying source delivers, possibly fewer bytes than asked for;
      [Decode_DecodeOn] shows that [Decode] is [DecodeOn] on a source that
      delivers its bytes at once.
    - [int] is 64 bits wide, so that [int(chunkSize)] is [chunkSize].
    - Go's [error] values are built by [fmt.Errorf]; every format string of
      the source is a constructor of [error] that carries the arguments of
      the call.
    - [readChunk] mutates the [*VoxFile] it is given and the mutation
      survives a failing read, so the reader and the record are threaded as
      an explicit state that every outcome returns.
    - The children loop of [readChunk] has no syntactic bound; the
      embedding takes a fuel argument, and [readChunk_total] shows that a
      fuel larger than the number of unread bytes is never exhausted. *)

From Stdlib Require Import String Strings.Byte.
From Stdlib Require Import ZArith List Lia Bool.
Import ListNotations.

Local Open Scope Z_scope.

(** ** Machine integers *)

Definition uint8 := Z.
Definition uint32 := Z.

Definition wrap32 (z : Z) : uint32 := z mod 2 ^ 32.

(** The numeric value of a byte of the input. *)
Definition u8 (b : byte) : uint8 := Z.of_N (Byte.to_N b).

(** ** Data model (voxfile.go, lines 21-64) *)

Definition CurrentVersion : uint32 := 150.

Record Voxel := mkVoxel {
  vX : uint8;
  vY : uint8;
  vZ : uint8;
  vIndex : uint8
}.

Record Color := mkColor {
  R : uint8;
  G : uint8;
  B : uint8;
  A : uint8
}.

Record VoxFile := mkVoxFile {
  Version : uint32;
  SizeX : uint32;
  SizeY : uint32;
  SizeZ : uint32;
  Voxels : list Voxel;
  Palette : list Color
}.

(** [new(VoxFile)]: every field at its zero value. *)
Definition newVoxFile : VoxFile := mkVoxFile 0 0 0 0 [] [].

Definition setVersion (f : VoxFile) (v : uint32) : VoxFile :=
  mkVoxFile v (SizeX f) (SizeY f) (SizeZ f) (Voxels f) (Palette f).

Definition setSize (f : VoxFile) (x y z : uint32) : VoxFile :=
  mkVoxFile (Version f) x y z (Voxels f) (Palette f).

Definition setVoxels (f : VoxFile) (vs : list Voxel) : VoxFile :=
  mkVoxFile (Version f) (SizeX f) (SizeY f) (SizeZ f) vs (Palette f).

Definition setPalette (f : VoxFile) (p : list Color) : VoxFile :=
  mkVoxFile (Version f) (SizeX f) (SizeY f) (SizeZ f) (Voxels f) p.

(** ** Errors *)

Inductive ioError := EOF | ErrUnexpectedEOF.

Inductive axis := AxisX | AxisY | AxisZ.

(** One constructor per [fmt.Errorf] call of voxfile.go, in source order. *)
Inductive error :=
| ErrNotVox (err : ioError)
    (* "File doesn't appear to be a VOX file. %v" *)
| ErrMagic (magic : list byte)
    (* "File doesn't appear to be a VOX file. (Magic: %v)" *)
| ErrVersionRead (err : ioError)
    (* "Couldn't read the version number from the file. %v" *)
| ErrVersion (version current : uint32)
    (* "Version number from the file (%d) doesn't match the current version (%d)." *)
| ErrChunkID (err : ioError)
    (* "Failed to read the chunk ID. %v" *)
| ErrChunkSize (chunkIDStr : string) (err : ioError)
    (* "Failed to read the %s chunk size. %v" *)
| ErrChildrenSize (chunkIDStr : string) (err : ioError)
    (* "Failed to read the %s chunk's children size. %v" *)
| ErrSizeNot12 (chunkIDStr : string) (chunkSize : uint32)
    (* "Failed to read the %s chunk. Size should have been 12 but is %d." *)
| ErrAxisSize (chunkIDStr : string) (a : axis) (err : ioError)
    (* "Failed to read the %s chunk X-axis size. %v" (and Y, Z) *)
| ErrVoxelCount (chunkIDStr : string) (err : ioError)
    (* "Failed to read the %s chunk voxel count. %v" *)
| ErrVoxel (chunkIDStr : string) (i : uint32) (err : ioError)
    (* "Failed to read the %s chunk voxel #%d. %v" *)
| ErrColor (chunkIDStr : string) (i : Z) (err : ioError)
    (* "Failed to read the %s chunk color #%d. %v" *)
| ErrContents (chunkIDStr : string) (err : ioError)
    (* "Failed to read the %s chunk contents. %v" *).

(** The error of a version mismatch, as opposed to the structural errors
    (bad signature, short read, wrong fixed-size payload). *)
Definition isVersionError (e : error) : bool :=
  match e with
  | ErrVersion _ _ => true
  | _ => false
  end.

(** ** The input stream *)

Definition Reader := list byte.

Module Bufio.

(** The [Read(p)] method of [bufio.Reader] with [len p = n]: the bytes
    copied into [p], or [EOF] when the input is exhausted. *)
Definition Read (n : nat) (r : Reader) : (ioError + list byte) * Reader :=
  match r with
  | [] => (inl EOF, [])
  | _ :: _ => (inr (firstn n r), skipn n r)
  end.

End Bufio.

Module Binary.

(** [io.ReadFull]: exactly [n] bytes, [EOF] when none is left and
    [ErrUnexpectedEOF] (the input drained) when fewer than [n] are. *)
Definition ReadFull (n : nat) (r : Reader)
    : (ioError + list byte) * Reader :=
  match n, r with
  | O, _ => (inr [], r)
  | _, [] => (inl EOF, [])
  | _, _ => if (length r <? n)%nat then (inl ErrUnexpectedEOF, [])
            else (inr (firstn n r), skipn n r)
  end.

(** [binary.LittleEndian.Uint32]. *)
Definition Uint32 (b : list byte) : uint32 :=
  match b with
  | [b0; b1; b2; b3] =>
      Z.lor (Z.lor (Z.lor (u8 b0) (Z.shiftl (u8 b1) 8))
                   (Z.shiftl (u8 b2) 16))
            (Z.shiftl (u8 b3) 24)
  | _ => 0
  end.

(** [binary.Read(r, binary.LittleEndian, &v)] for [v] a [uint32]. *)
Definition ReadUint32 (r : Reader) : (ioError + uint32) * Reader :=
  match ReadFull 4 r with
  | (inl err, r') => (inl err, r')
  | (inr bs, r') => (inr (Uint32 bs), r')
  end.

(** [binary.Read(r, binary.LittleEndian, &v)] for [v] a [uint8]. *)
Definition ReadUint8 (r : Reader) : (ioError + uint8) * Reader :=
  match ReadFull 1 r with
  | (inl err, r') => (inl err, r')
  | (inr bs, r') => (inr (u8 (hd x00 bs)), r')
  end.

End Binary.

(** A [[4]byte] array after [Read] copied [bs] into its zero value. *)
Definition array4 (bs : list byte) : list byte :=
  firstn 4 (bs ++ [x00; x00; x00; x00]).

(** ** The decoding monad: state, errors and fuel *)

Record State := mkState {
  rd : Reader;
  vox : VoxFile
}.

Inductive outcome (T : Type) :=
| Done (v : T)
| Fail (e : error)
| OutOfFuel.
Arguments Done {T} v.
Arguments Fail {T} e.
Arguments OutOfFuel {T}.

Definition M (T : Type) := State -> outcome T * State.

Definition ret {T} (v : T) : M T := fun s => (Done v, s).

Definition bind {T U} (m : M T) (k : T -> M U) : M U :=
  fun s =>
    match m s with
    | (Done v, s') => k v s'
    | (Fail e, s') => (Fail e, s')
    | (OutOfFuel, s') => (OutOfFuel, s')
    end.

Definition fail {T} (e : error) : M T := fun s => (Fail e, s).

Definition outOfFuel {T} : M T := fun s => (OutOfFuel, s).

(** A read on the stream whose failure is wrapped by [wrapErr], the
    [if err != nil { return 0, fmt.Errorf(...) }] of the source. *)
Definition try {T} (read : Reader -> (ioError + T) * Reader)
    (wrapErr : ioError -> error) : M T :=
  fun s =>
    match read (rd s) with
    | (inl err, r') => (Fail (wrapErr err), mkState r' (vox s))
    | (inr v, r') => (Done v, mkState r' (vox s))
    end.

(** A mutation of the record behind the [*VoxFile] pointer. *)
Definition update (f : VoxFile -> VoxFile) : M unit :=
  fun s => (Done tt, mkState (rd s) (f (vox s))).

Notation "x <- m ;; k" := (bind m (fun x => k))
  (at level 61, m at next level, right associativity).
Notation "m ;;; k" := (bind m (fun _ => k))
  (at level 61, right associativity).

(** ** readChunk (voxfile.go, lines 115-255) *)

(** The voxel loop of the XYZI branch (lines 175-196): [n] iterations left,
    [i] the loop counter. *)
Fixpoint readVoxels (chunkIDStr : string) (n : nat) (i : uint32)
    : M (list Voxel) :=
  match n with
  | O => ret []
  | S n' =>
      x <- try Binary.ReadUint8 (ErrVoxel chunkIDStr i) ;;
      y <- try Binary.ReadUint8 (ErrVoxel chunkIDStr i) ;;
      z <- try Binary.ReadUint8 (ErrVoxel chunkIDStr i) ;;
      c <- try Binary.ReadUint8 (ErrVoxel chunkIDStr i) ;;
      voxels <- readVoxels chunkIDStr n' (i + 1) ;;
      ret (mkVoxel x y z c :: voxels)
  end.

(** The color loop of the RGBA branch (lines 204-225). *)
Fixpoint readColors (chunkIDStr : string) (n : nat) (i : Z)
    : M (list Color) :=
  match n with
  | O => ret []
  | S n' =>
      r <- try Binary.ReadUint8 (ErrColor chunkIDStr i) ;;
      g <- try Binary.ReadUint8 (ErrColor chunkIDStr i) ;;
      b <- try Binary.ReadUint8 (ErrColor chunkIDStr i) ;;
      a <- try Binary.ReadUint8 (ErrColor chunkIDStr i) ;;
      colors <- readColors chunkIDStr n' (i + 1) ;;
      ret (mkColor r g b a :: colors)
  end.

(** The skip loop of the last branch (lines 231-240).  Every iteration
    reads into the 4-byte array [chunkID], whose contents are not used
    again, and adds the number of bytes it got to [totalRead]. *)
Fixpoint skipContents (fuel : nat) (chunkIDStr : string)
    (totalRead chunkSize : Z) : M unit :=
  if totalRead <? chunkSize then
    match fuel with
    | O => outOfFuel
    | S fuel' =>
        c <- try (Bufio.Read 4) (ErrContents chunkIDStr) ;;
        skipContents fuel' chunkIDStr (totalRead + Z.of_nat (length c))
          chunkSize
    end
  else ret tt.

(** The children loop (lines 245-252), over the reader [child] of one
    chunk. *)
Fixpoint readChildren (fuel : nat) (child : M uint32)
    (remainingBytes : uint32) : M unit :=
  if 0 <? remainingBytes then
    match fuel with
    | O => outOfFuel
    | S fuel' =>
        childReadSize <- child ;;
        readChildren fuel' child (wrap32 (remainingBytes - childReadSize))
    end
  else ret tt.

(** The payload block (lines 139-242): the handlers of the SIZE, XYZI and
    RGBA chunks and the skip loop for every other identifier, all of them
    under the guard [chunkSize > 0]. *)
Definition readPayload (fuel : nat) (chunkIDStr : string)
    (chunkSize : uint32) : M unit :=
  if 0 <? chunkSize then
    if (chunkIDStr =? "SIZE")%string then
      (* read the dimensions of the chunk *)
      if negb (chunkSize =? 12)%Z then
        fail (ErrSizeNot12 chunkIDStr chunkSize)
      else
        sizeX <- try Binary.ReadUint32 (ErrAxisSize chunkIDStr AxisX) ;;
        sizeY <- try Binary.ReadUint32 (ErrAxisSize chunkIDStr AxisY) ;;
        sizeZ <- try Binary.ReadUint32 (ErrAxisSize chunkIDStr AxisZ) ;;
        update (fun f => setSize f sizeX sizeY sizeZ)
    else if (chunkIDStr =? "XYZI")%string then
      voxelCount <- try Binary.ReadUint32 (ErrVoxelCount chunkIDStr) ;;
      voxels <- readVoxels chunkIDStr (Z.to_nat voxelCount) 0 ;;
      update (fun f => setVoxels f voxels)
    else if (chunkIDStr =? "RGBA")%string then
      customPalette <- readColors chunkIDStr 256 0 ;;
      update (fun f => setPalette f customPalette)
    else
      skipContents fuel chunkIDStr 0 chunkSize
  else ret tt.

Fixpoint readChunk (fuel : nat) : M uint32 :=
  match fuel with
  | O => outOfFuel
  | S fuel' =>
      (* get the ID *)
      chunkID <- try (Bufio.Read 4) ErrChunkID ;;
      let chunkIDStr := string_of_list_byte (array4 chunkID) in
      (* get the chunk Size *)
      chunkSize <- try Binary.ReadUint32 (ErrChunkSize chunkIDStr) ;;
      (* get the children size *)
      chunkChildrenSize <-
        try Binary.ReadUint32 (ErrChildrenSize chunkIDStr) ;;
      (* read in the chunk if necessary *)
      readPayload fuel' chunkIDStr chunkSize ;;;
      (* read children if necessary *)
      readChildren fuel' (readChunk fuel') chunkChildrenSize ;;;
      ret (wrap32 (chunkSize + 12)) (* +12 bytes for id, size, childSize *)
  end.

(** ** The palette materializer (voxfile.go, lines 257-292) *)

(** The parameter is a [[256]uint32]; the loop visits its 256 entries.  Each
    masked and shifted value is below 256, which makes the conversion
    [uint8(...)] the identity. *)
Definition instancePalette (p : list uint32) : list Color :=
  map (fun value =>
         mkColor (Z.land value 0x000000ff)
                 (Z.shiftr (Z.land value 0x0000ff00) 8)
                 (Z.shiftr (Z.land value 0x00ff0000) 16)
                 (Z.shiftr (Z.land value 0xff000000) 24))
      (firstn 256 p).

Definition defaultPalette : list uint32 :=
  [
    0x00000000; 0xffffffff; 0xffccffff; 0xff99ffff; 0xff66ffff; 0xff33ffff; 0xff00ffff; 0xffffccff;
    0xffccccff; 0xff99ccff; 0xff66ccff; 0xff33ccff; 0xff00ccff; 0xffff99ff; 0xffcc99ff; 0xff9999ff;
    0xff6699ff; 0xff3399ff; 0xff0099ff; 0xffff66ff; 0xffcc66ff; 0xff9966ff; 0xff6666ff; 0xff3366ff;
    0xff0066ff; 0xffff33ff; 0xffcc33ff; 0xff9933ff; 0xff6633ff; 0xff3333ff; 0xff0033ff; 0xffff00ff;
    0xffcc00ff; 0xff9900ff; 0xff6600ff; 0xff3300ff; 0xff0000ff; 0xffffffcc; 0xffccffcc; 0xff99ffcc;
    0xff66ffcc; 0xff33ffcc; 0xff00ffcc; 0xffffcccc; 0xffcccccc; 0xff99cccc; 0xff66cccc; 0xff33cccc;
    0xff00cccc; 0xffff99cc; 0xffcc99cc; 0xff9999cc; 0xff6699cc; 0xff3399cc; 0xff0099cc; 0xffff66cc;
    0xffcc66cc; 0xff9966cc; 0xff6666cc; 0xff3366cc; 0xff0066cc; 0xffff33cc; 0xffcc33cc; 0xff9933cc;
    0xff6633cc; 0xff3333cc; 0xff0033cc; 0xffff00cc; 0xffcc00cc; 0xff9900cc; 0xff6600cc; 0xff3300cc;
    0xff0000cc; 0xffffff99; 0xffccff99; 0xff99ff99; 0xff66ff99; 0xff33ff99; 0xff00ff99; 0xffffcc99;
    0xffcccc99; 0xff99cc99; 0xff66cc99; 0xff33cc99; 0xff00cc99; 0xffff9999; 0xffcc9999; 0xff999999;
    0xff669999; 0xff339999; 0xff009999; 0xffff6699; 0xffcc6699; 0xff996699; 0xff666699; 0xff336699;
    0xff006699; 0xffff3399; 0xffcc3399; 0xff993399; 0xff663399; 0xff333399; 0xff003399; 0xffff0099;
    0xffcc0099; 0xff990099; 0xff660099; 0xff330099; 0xff000099; 0xffffff66; 0xffccff66; 0xff99ff66;
    0xff66ff66; 0xff33ff66; 0xff00ff66; 0xffffcc66; 0xffcccc66; 0xff99cc66; 0xff66cc66; 0xff33cc66;
    0xff00cc66; 0xffff9966; 0xffcc9966; 0xff999966; 0xff669966; 0xff339966; 0xff009966; 0xffff6666;
    0xffcc6666; 0xff996666; 0xff666666; 0xff336666; 0xff006666; 0xffff3366; 0xffcc3366; 0xff993366;
    0xff663366; 0xff333366; 0xff003366; 0xffff0066; 0xffcc0066; 0xff990066; 0xff660066; 0xff330066;
    0xff000066; 0xffffff33; 0xffccff33; 0xff99ff33; 0xff66ff33; 0xff33ff33; 0xff00ff33; 0xffffcc33;
    0xffcccc33; 0xff99cc33; 0xff66cc33; 0xff33cc33; 0xff00cc33; 0xffff9933; 0xffcc9933; 0xff999933;
    0xff669933; 0xff339933; 0xff009933; 0xffff6633; 0xffcc6633; 0xff996633; 0xff666633; 0xff336633;
    0xff006633; 0xffff3333; 0xffcc3333; 0xff993333; 0xff663333; 0xff333333; 0xff003333; 0xffff0033;
    0xffcc0033; 0xff990033; 0xff660033; 0xff330033; 0xff000033; 0xffffff00; 0xffccff00; 0xff99ff00;
    0xff66ff00; 0xff33ff00; 0xff00ff00; 0xffffcc00; 0xffcccc00; 0xff99cc00; 0xff66cc00; 0xff33cc00;
    0xff00cc00; 0xffff9900; 0xffcc9900; 0xff999900; 0xff669900; 0xff339900; 0xff009900; 0xffff6600;
    0xffcc6600; 0xff996600; 0xff666600; 0xff336600; 0xff006600; 0xffff3300; 0xffcc3300; 0xff993300;
    0xff663300; 0xff333300; 0xff003300; 0xffff0000; 0xffcc0000; 0xff990000; 0xff660000; 0xff330000;
    0xff0000ee; 0xff0000dd; 0xff0000bb; 0xff0000aa; 0xff000088; 0xff000077; 0xff000055; 0xff000044;
    0xff000022; 0xff000011; 0xff00ee00; 0xff00dd00; 0xff00bb00; 0xff00aa00; 0xff008800; 0xff007700;
    0xff005500; 0xff004400; 0xff002200; 0xff001100; 0xffee0000; 0xffdd0000; 0xffbb0000; 0xffaa0000;
    0xff880000; 0xff770000; 0xff550000; 0xff440000; 0xff220000; 0xff110000; 0xffeeeeee; 0xffdddddd;
    0xffbbbbbb; 0xffaaaaaa; 0xff888888; 0xff777777; 0xff555555; 0xff444444; 0xff222222; 0xff111111
  ].

(** ** Decode (voxfile.go, lines 81-113) *)

(** Lines 86-104: the signature and the version.  On success the version
    and the reader positioned after the 8 header bytes. *)
Definition decodeHeader (r : Reader) : error + uint32 * Reader :=
  match Bufio.Read 4 r with
  | (inl err, _) => inl (ErrNotVox err)
  | (inr bs, r1) =>
      let c := length bs in
      let magic := array4 bs in
      if negb (c =? 4)%nat
         || negb (Byte.eqb (nth 0 magic x00) "V"%byte)
         || negb (Byte.eqb (nth 1 magic x00) "O"%byte)
         || negb (Byte.eqb (nth 2 magic x00) "X"%byte)
         || negb (Byte.eqb (nth 3 magic x00) " "%byte)
      then inl (ErrMagic magic)
      else
        match Binary.ReadUint32 r1 with
        | (inl err, _) => inl (ErrVersionRead err)
        | (inr version, r2) =>
            if negb (version =? CurrentVersion)%Z
            then inl (ErrVersion version CurrentVersion)
            else inr (version, r2)
        end
  end.

(** The two results of [Decode], a [*VoxFile] and an [error], each
    possibly [nil]; [None] only if the fuel of the chunk reader ran out,
    which [Decode_total] excludes. *)
Definition Decode (r : Reader) : option (option VoxFile * option error) :=
  match decodeHeader r with
  | inl err => Some (None, Some err)
  | inr (version, r') =>
      let voxelFile := setVersion newVoxFile version in
      match readChunk (S (length r')) (mkState r' voxelFile) with
      | (OutOfFuel, _) => None
      | (Done _, s) =>
          Some (Some (setPalette (vox s) (instancePalette defaultPalette)),
                None)
      | (Fail err, s) =>
          Some (Some (setPalette (vox s) (instancePalette defaultPalette)),
                Some err)
      end
  end.

(** ** Decode on a reader with any delivery *)

(** A [bufio.Reader]: the bytes in its buffer that were not read yet, and
    what the successive [Read] calls on the underlying source will
    deliver, an empty block when a call returns 0 bytes without error;
    after the last block the source returns [EOF]. *)
Record BufReader := mkBufReader {
  buffered : list byte;
  pending : list (list byte)
}.

(** [bufio.NewReader] over a source with the given deliveries. *)
Definition NewReader (deliveries : list (list byte)) : BufReader :=
  mkBufReader [] deliveries.

(** The bytes still to come, however they are delivered. *)
Definition unread (b : BufReader) : list byte :=
  buffered b ++ concat (pending b).

Module Delivered.

(** The [Read(p)] method of [bufio.Reader] with [len p = n]: bytes are
    copied from the buffer; an empty buffer is filled first by one [Read]
    on the source, and what that call delivers is all this [Read] can
    return. *)
Definition Read (n : nat) (b : BufReader)
    : (ioError + list byte) * BufReader :=
  match buffered b with
  | _ :: _ =>
      (inr (firstn n (buffered b)),
       mkBufReader (skipn n (buffered b)) (pending b))
  | [] =>
      match pending b with
      | [] => (inl EOF, b)
      | block :: pending' =>
          (inr (firstn n block), mkBufReader (skipn n block) pending')
      end
  end.

(** The loop of [io.ReadFull] once the buffer is used up: [need] bytes are
    missing, [acc] was read so far. *)
Fixpoint fill (need : nat) (acc : list byte) (pending : list (list byte))
    : (ioError + list byte) * BufReader :=
  match need with
  | O => (inr acc, mkBufReader [] pending)
  | S _ =>
      match pending with
      | [] =>
          (inl match acc with [] => EOF | _ :: _ => ErrUnexpectedEOF end,
           mkBufReader [] [])
      | block :: pending' =>
          if (length block <? need)%nat
          then fill (need - length block) (acc ++ block) pending'
          else (inr (acc ++ firstn need block),
                mkBufReader (skipn need block) pending')
      end
  end.

(** [io.ReadFull] on the reader: [Read] is called until [n] bytes are
    there or the source is at its end. *)
Definition ReadFull (n : nat) (b : BufReader)
    : (ioError + list byte) * BufReader :=
  if (n <=? length (buffered b))%nat
  then (inr (firstn n (buffered b)),
        mkBufReader (skipn n (buffered b)) (pending b))
  else fill (n - length (buffered b)) (buffered b) (pending b).

(** [binary.Read(r, binary.LittleEndian, &v)] for [v] a [uint32]. *)
Definition ReadUint32 (b : BufReader) : (ioError + uint32) * BufReader :=
  match ReadFull 4 b with
  | (inl err, b') => (inl err, b')
  | (inr bs, b') => (inr (Binary.Uint32 bs), b')
  end.

End Delivered.

(** [Decode] (voxfile.go, lines 83-113) on a reader with any delivery.  Its
    call of [readChunk] (line 107) is the parameter [readChunkOn], which
    returns the record as the chunk reader left it and the error. *)
Definition DecodeOn
    (readChunkOn : BufReader -> VoxFile -> VoxFile * option error)
    (r : BufReader) : option VoxFile * option error :=
  match Delivered.Read 4 r with
  | (inl err, _) => (None, Some (ErrNotVox err))
  | (inr bs, r1) =>
      let c := length bs in
      let magic := array4 bs in
      if negb (c =? 4)%nat
         || negb (Byte.eqb (nth 0 magic x00) "V"%byte)
         || negb (Byte.eqb (nth 1 magic x00) "O"%byte)
         || negb (Byte.eqb (nth 2 magic x00) "X"%byte)
         || negb (Byte.eqb (nth 3 magic x00) " "%byte)
      then (None, Some (ErrMagic magic))
      else
        match Delivered.ReadUint32 r1 with
        | (inl err, _) => (None, Some (ErrVersionRead err))
        | (inr version, r2) =>
            if negb (version =? CurrentVersion)%Z
            then (None, Some (ErrVersion version CurrentVersion))
            else
              let voxelFile := setVersion newVoxFile version in
              let (voxelFile', err) := readChunkOn r2 voxelFile in
              (Some (setPalette voxelFile' (instancePalette defaultPalette)),
               err)
        end
  end.

(** The delivery of a source that hands out all its bytes on the first
    [Read]. *)
Definition atOnce (input : list byte) : list (list byte) :=
  match input with
  | [] => []
  | _ :: _ => [input]
  end.

(** The chunk reader on a reader of such a source: [readChunk] on the
    bytes still to come, with a fuel that [readChunk_total] shows is not
    exhausted. *)
Definition readChunkAtOnce (r : BufReader) (voxelFile : VoxFile)
    : VoxFile * option error :=
  match readChunk (S (length (unread r))) (mkState (unread r) voxelFile) with
  | (Fail err, s) => (vox s, Some err)
  | (_, s) => (vox s, None)
  end.

(** What the next [Read] can deliver: the buffer, or the next delivery of
    the source when the buffer is empty. *)
Definition firstRead (b : BufReader) : list byte :=
  match buffered b with
  | _ :: _ => buffered b
  | [] =>
      match pending b with
      | [] => []
      | block :: _ => block
      end
  end.

(** ** DecodeFile (voxfile.go, lines 66-79) and the test of the package *)

(** The files [os.Open] can open, with their contents. *)
Definition FileSystem := string -> option (list byte).

(** The [error] of [DecodeFile]: the one of [os.Open], or one of
    [Decode]. *)
Inductive fileError :=
| ErrOpen (fn : string)
| ErrDecode (err : error).

(** [DecodeFile] (voxfile.go, lines 66-79).  The file is read through a
    [bufio.Reader], modelled as in [Decode]; closing the file is not
    modelled. *)
Definition DecodeFile (fs : FileSystem) (fn : string)
    : option (option VoxFile * option fileError) :=
  match fs fn with
  | None => Some (None, Some (ErrOpen fn))
  | Some contents =>
      match Decode contents with
      | None => None
      | Some (voxFile, err) => Some (voxFile, option_map ErrDecode err)
      end
  end.

Definition voxfileCharacter : string := "testdata/chr_sword.vox".

(** What [TestFileLoad] reports: each constructor is one [t.Errorf] call of
    the test, in source order. *)
Inductive failure :=
| BadVersion (version : uint32)
| BadSizeX (sizeX : uint32)
| BadSizeY (sizeY : uint32)
| BadSizeZ (sizeZ : uint32)
| BadVoxelCount (count : nat)
| BadColor (i : nat).

(** The outcome of the test: stopped by [t.Fatalf], stopped by the panic of
    an index out of range (a palette of fewer than 3 entries, the nil
    palette the test reports first among them), or run to its end with the
    list of its [t.Errorf] calls; the test passes when the list is
    empty. *)
Inductive testReport :=
| Fatal
| Panic
| Errors (failures : list failure).

(** One [if ... { t.Errorf(...) }] of the test: [ok] is the negation of
    its condition. *)
Definition check (ok : bool) (f : failure) : list failure :=
  if ok then [] else [f].

Definition colorIs (c : Color) (r g b a : uint8) : bool :=
  (R c =? r) && (G c =? g) && (B c =? b) && (A c =? a).

(** [TestFileLoad], the test of the package: the file at
    [voxfileCharacter] is loaded with [DecodeFile] and its fields are
    compared with the expected ones. *)
Definition TestFileLoad (fs : FileSystem) : option testReport :=
  match DecodeFile fs voxfileCharacter with
  | None => None
  | Some (_, Some _) | Some (None, _) => Some Fatal
  | Some (Some voxFile, None) =>
      match Palette voxFile with
      | c0 :: c1 :: c2 :: _ =>
          Some (Errors
                  (check (Version voxFile =? 150)
                     (BadVersion (Version voxFile))
                   ++ check (SizeX voxFile =? 20) (BadSizeX (SizeX voxFile))
                   ++ check (SizeY voxFile =? 21) (BadSizeY (SizeY voxFile))
                   ++ check (SizeZ voxFile =? 20) (BadSizeZ (SizeZ voxFile))
                   ++ check (length (Voxels voxFile) =? 334)%nat
                        (BadVoxelCount (length (Voxels voxFile)))
                   ++ check (colorIs c0 0 0 0 0) (BadColor 0)
                   ++ check (colorIs c1 0xff 0xff 0xff 0xff) (BadColor 1)
                   ++ check (colorIs c2 0xff 0xcc 0xff 0xff) (BadColor 2)))
      | _ => Some Panic
      end
  end.

(** * Definitions of the specification *)

(** ** Fuel and stream bounds *)

(** [bounded k m s]: run from [s], the computation [m] does not run out of
    fuel, never gives bytes back to the stream, and a run that succeeds has
    consumed at least [k] bytes. *)
Definition bounded {T} (k : nat) (m : M T) (s : State) : Prop :=
  forall o s', m s = (o, s') ->
    o <> OutOfFuel /\
    (length (rd s') <= length (rd s))%nat /\
    (forall v, o = Done v -> (length (rd s') + k <= length (rd s))%nat).

(** ** Payloads *)

(** The voxel records of a payload: consecutive groups of four bytes, in
    file order, as X, Y, Z and palette index. *)
Fixpoint voxelsOf (n : nat) (bs : list byte) : list Voxel :=
  match n, bs with
  | S n', x :: y :: z :: c :: bs' =>
      mkVoxel (u8 x) (u8 y) (u8 z) (u8 c) :: voxelsOf n' bs'
  | _, _ => []
  end.

(** ** Concrete inputs *)

(** The 8 bytes of a valid header: the signature and version 150. *)
Definition header : list byte :=
  list_byte_of_string "VOX " ++ [x96; x00; x00; x00].

(** The 12 bytes of a chunk header. *)
Definition chunkHeader (id : string) (size children : list byte)
    : list byte :=
  list_byte_of_string id ++ size ++ children.

Definition zero4 : list byte := [x00; x00; x00; x00].

(** A file whose RGBA chunk sets every palette entry to (1, 2, 3, 4). *)
Definition customPaletteFile : list byte :=
  header ++ chunkHeader "RGBA" [x00; x04; x00; x00] zero4
         ++ concat (repeat [x01; x02; x03; x04] 256).

(** A file cut in the middle of the first voxel of its XYZI chunk, after a
    complete SIZE chunk. *)
Definition truncatedFile : list byte :=
  header ++ chunkHeader "MAIN" zero4 [x2c; x00; x00; x00]
         ++ chunkHeader "SIZE" [x0c; x00; x00; x00] zero4
         ++ [x14; x00; x00; x00] ++ [x15; x00; x00; x00]
         ++ [x14; x00; x00; x00]
         ++ chunkHeader "XYZI" [x08; x00; x00; x00] zero4
         ++ [x01; x00; x00; x00] ++ [x01; x02].

(** A well-formed tree of three levels: a root whose only child has itself
    one child.  Every payload is empty; the declared children sizes are 24
    (the child and the grandchild) and 12 (the grandchild). *)
Definition leafChunk : list byte := chunkHeader "LEAF" zero4 zero4.
Definition nodeChunk : list byte :=
  chunkHeader "NODE" zero4 [x0c; x00; x00; x00] ++ leafChunk.
Definition nestedTree : list byte :=
  chunkHeader "MAIN" zero4 [x18; x00; x00; x00] ++ nodeChunk.

(** A chunk with an identifier the decoder does not know and a payload of
    one byte, followed by a SIZE chunk with extents 20, 21, 20. *)
Definition sizeChunk : list byte :=
  chunkHeader "SIZE" [x0c; x00; x00; x00] zero4
  ++ [x14; x00; x00; x00] ++ [x15; x00; x00; x00] ++ [x14; x00; x00; x00].
Definition noteChunk : list byte :=
  chunkHeader "NOTE" [x01; x00; x00; x00] zero4 ++ [xaa].
Definition noteFile : list byte :=
  header ++ chunkHeader "MAIN" zero4 [x25; x00; x00; x00]
         ++ noteChunk ++ sizeChunk.

(** The bytes of a valid file, the header and an empty root chunk,
    delivered one byte per [Read] of the source. *)
Definition oneByteSource : list (list byte) :=
  map (fun b => [b]) (header ++ chunkHeader "MAIN" zero4 zero4).

(** ** Definitions for the further properties *)

(** [preserves Rel m]: every run of [m] relates the state it starts from to
    the state it ends in. *)
Definition preserves (Rel : State -> State -> Prop) {T} (m : M T) : Prop :=
  forall s o s', m s = (o, s') -> Rel s s'.

(** The colors of a payload: consecutive groups of four bytes, in file
    order, as R, G, B and A. *)
Fixpoint colorsOf (n : nat) (bs : list byte) : list Color :=
  match n, bs with
  | S n', r :: g :: b :: a :: bs' =>
      mkColor (u8 r) (u8 g) (u8 b) (u8 a) :: colorsOf n' bs'
  | _, _ => []
  end.

(** The axis whose word is the [n]-th of a SIZE payload. *)
Definition axisOf (n : nat) : axis :=
  match n with
  | O => AxisX
  | S O => AxisY
  | _ => AxisZ
  end.

(** The failure of [readChunk] on a stream that ends within the 12 bytes of
    a chunk header. *)
Definition headerError (r : Reader) : error :=
  let chunkIDStr := string_of_list_byte (array4 (firstn 4 r)) in
  match length r with
  | 0 => ErrChunkID EOF
  | 1 | 2 | 3 | 4 => ErrChunkSize chunkIDStr EOF
  | 5 | 6 | 7 => ErrChunkSize chunkIDStr ErrUnexpectedEOF
  | 8 => ErrChildrenSize chunkIDStr EOF
  | _ => ErrChildrenSize chunkIDStr ErrUnexpectedEOF
  end%nat.

(** [suffix r' r]: the stream [r'] is what is left of [r] after some bytes
    were taken off its front. *)
Definition suffix (r' r : Reader) : Prop := exists p, r = p ++ r'.

(** The packed 32-bit value of a color: R in the low byte, then G, B and
    A. *)
Definition packColor (c : Color) : uint32 :=
  Z.lor (Z.lor (Z.lor (R c) (Z.shiftl (G c) 8)) (Z.shiftl (B c) 16))
        (Z.shiftl (A c) 24).

(** The values of a [uint8], and the colors made of them. *)
Definition isByte (z : Z) : Prop := 0 <= z < 256.

Definition isColor (c : Color) : Prop :=
  isByte (R c) /\ isByte (G c) /\ isByte (B c) /\ isByte (A c).

(** [mono m1 m2]: a run of [m1] that does not run out of fuel is also the
    run of [m2]. *)
Definition mono {T} (m1 m2 : M T) : Prop :=
  forall s o s', m1 s = (o, s') -> o <> OutOfFuel -> m2 s = (o, s').

(** [reads child s steps]: from [s], successive runs of [child] succeed,
    report the positive sizes and reach the states listed in [steps]. *)
Fixpoint reads (child : M uint32) (s : State)
    (steps : list (uint32 * State)) : Prop :=
  match steps with
  | [] => True
  | (v, s1) :: steps' =>
      child s = (Done v, s1) /\ 0 < v /\ reads child s1 steps'
  end.

(** The sum of the sizes the children of [steps] report. *)
Definition reported (steps : list (uint32 * State)) : Z :=
  fold_right (fun step total => fst step + total) 0 steps.

(** The state after the last child of [steps], [s] when there is none. *)
Definition finalState (s : State) (steps : list (uint32 * State)) : State :=
  last (map snd steps) s.

(** Four bytes: a chunk identifier or a 32-bit word as it is in the file. *)
Definition quad := (byte * byte * byte * byte)%type.

Definition bytesOf (q : quad) : list byte :=
  let '(a, b, c, d) := q in [a; b; c; d].

(** Chunks without payload nested in one another around the stream [r]:
    the identifier and the declared children size of each. *)
Fixpoint nest (parents : list (quad * quad)) (r : Reader) : Reader :=
  match parents with
  | [] => r
  | (id, children) :: parents' =>
      bytesOf id ++ zero4 ++ bytesOf children ++ nest parents' r
  end.


(** The file the test expects: extents 20, 21, 20 and 334 voxels. *)
Definition swordFile : list byte :=
  header
  ++ chunkHeader "MAIN" zero4 [x60; x05; x00; x00]
  ++ chunkHeader "SIZE" [x0c; x00; x00; x00] zero4
  ++ [x14; x00; x00; x00] ++ [x15; x00; x00; x00] ++ [x14; x00; x00; x00]
  ++ chunkHeader "XYZI" [x3c; x05; x00; x00] zero4
  ++ [x4e; x01; x00; x00] ++ concat (repeat [x01; x02; x03; x04] 334).

(** * Properties *)

(** ** Bytes and little-endian words *)

Lemma u8_range (b : byte) : 0 <= u8 b < 256.
Proof.
  unfold u8. pose proof (Byte.to_N_bounded b). lia.
Qed.

Lemma u8_inj (a b : byte) : u8 a = u8 b -> a = b.
Proof.
  unfold u8. intros H. apply N2Z.inj in H.
  pose proof (Byte.of_to_N a) as Ha. rewrite H, Byte.of_to_N in Ha.
  congruence.
Qed.

Lemma lor_shiftl_add (a b n : Z) :
  0 <= n -> 0 <= a < 2 ^ n -> Z.lor a (Z.shiftl b n) = a + b * 2 ^ n.
Proof.
  intros Hn Ha.
  rewrite <- (Z.shiftl_mul_pow2 b n Hn), <- Z.add_lor_land.
  assert (Hland : Z.land a (Z.shiftl b n) = 0).
  { apply Z.bits_inj'. intros i Hi.
    rewrite Z.land_spec, Z.bits_0.
    destruct (Z.lt_ge_cases i n) as [Hlt | Hge].
    - rewrite (Z.shiftl_spec_low b n i Hlt). apply andb_false_r.
    - destruct (Z.eq_dec a 0) as [-> | Hnz].
      + now rewrite Z.bits_0.
      + rewrite (Z.bits_above_log2 a i); [reflexivity | lia |].
        apply Z.log2_lt_pow2; try lia.
        apply Z.lt_le_trans with (2 ^ n); try lia.
        apply Z.pow_le_mono_r; lia. }
  rewrite Hland. lia.
Qed.

(** The value [binary.LittleEndian.Uint32] computes with [|] and [<<] is the
    base-256 number of the four bytes. *)
Lemma Uint32_sum (b0 b1 b2 b3 : byte) :
  Binary.Uint32 [b0; b1; b2; b3]
  = u8 b0 + u8 b1 * 2 ^ 8 + u8 b2 * 2 ^ 16 + u8 b3 * 2 ^ 24.
Proof.
  unfold Binary.Uint32.
  pose proof (u8_range b0). pose proof (u8_range b1).
  pose proof (u8_range b2). pose proof (u8_range b3).
  rewrite (lor_shiftl_add (u8 b0) (u8 b1) 8) by lia.
  rewrite (lor_shiftl_add _ (u8 b2) 16) by lia.
  rewrite (lor_shiftl_add _ (u8 b3) 24) by lia.
  reflexivity.
Qed.

Lemma Uint32_range (b : list byte) : 0 <= Binary.Uint32 b < 2 ^ 32.
Proof.
  destruct b as [| b0 [| b1 [| b2 [| b3 [| ? ?]]]]];
    try (cbn; lia).
  rewrite Uint32_sum.
  pose proof (u8_range b0). pose proof (u8_range b1).
  pose proof (u8_range b2). pose proof (u8_range b3). lia.
Qed.

Lemma Uint32_inj (a0 a1 a2 a3 b0 b1 b2 b3 : byte) :
  Binary.Uint32 [a0; a1; a2; a3] = Binary.Uint32 [b0; b1; b2; b3] ->
  a0 = b0 /\ a1 = b1 /\ a2 = b2 /\ a3 = b3.
Proof.
  rewrite !Uint32_sum. intros H.
  pose proof (u8_range a0). pose proof (u8_range a1).
  pose proof (u8_range a2). pose proof (u8_range a3).
  pose proof (u8_range b0). pose proof (u8_range b1).
  pose proof (u8_range b2). pose proof (u8_range b3).
  repeat split; apply u8_inj; lia.
Qed.

Arguments u8 : simpl never.
Arguments Binary.Uint32 : simpl never.

Lemma Uint32_zero : Binary.Uint32 [x00; x00; x00; x00] = 0.
Proof. reflexivity. Qed.

(** ** The primitive reads *)

Lemma Read_length (n : nat) (r r' : Reader) (x : ioError + list byte) :
  Bufio.Read (S n) r = (x, r') ->
  (length r' <= length r)%nat /\
  (forall bs, x = inr bs -> (length r' < length r)%nat).
Proof.
  destruct r as [| b r]; cbn [Bufio.Read]; intros H; inversion H; subst.
  - split; [lia | discriminate].
  - pose proof (length_skipn n r). cbn [skipn length]. split; intros; lia.
Qed.

Lemma ReadFull_length (n : nat) (r r' : Reader) (x : ioError + list byte) :
  Binary.ReadFull n r = (x, r') ->
  (length r' <= length r)%nat /\
  (forall bs, x = inr bs -> (length r' + n = length r)%nat).
Proof.
  unfold Binary.ReadFull.
  destruct n as [| n].
  - intros H; inversion H; subst. split; intros; lia.
  - destruct r as [| b r].
    + intros H; inversion H; subst. split; [lia | discriminate].
    + destruct (Nat.ltb_spec (length (b :: r)) (S n)) as [Hlt | Hge];
        intros H; inversion H; subst.
      * cbn [length]. split; [lia | discriminate].
      * pose proof (length_skipn n r). cbn [length skipn] in *.
        split; intros; lia.
Qed.

Lemma ReadUint32_length (r r' : Reader) (x : ioError + uint32) :
  Binary.ReadUint32 r = (x, r') ->
  (length r' <= length r)%nat /\
  (forall v, x = inr v -> (length r' + 4 = length r)%nat).
Proof.
  unfold Binary.ReadUint32.
  destruct (Binary.ReadFull 4 r) as [[err | bs] r1] eqn:E;
    intros H; inversion H; subst;
    destruct (ReadFull_length _ _ _ _ E) as [Hle Heq].
  - split; [exact Hle | discriminate].
  - split; [exact Hle | intros; now apply (Heq bs)].
Qed.

Lemma ReadUint8_length (r r' : Reader) (x : ioError + uint8) :
  Binary.ReadUint8 r = (x, r') ->
  (length r' <= length r)%nat /\
  (forall v, x = inr v -> (length r' + 1 = length r)%nat).
Proof.
  unfold Binary.ReadUint8.
  destruct (Binary.ReadFull 1 r) as [[err | bs] r1] eqn:E;
    intros H; inversion H; subst;
    destruct (ReadFull_length _ _ _ _ E) as [Hle Heq].
  - split; [exact Hle | discriminate].
  - split; [exact Hle | intros; now apply (Heq bs)].
Qed.

(** Reads on a stream that holds the bytes asked for. *)

Lemma try_Read4 {wrapErr} (a b c d : byte) (r : Reader) (f : VoxFile) :
  try (Bufio.Read 4) wrapErr (mkState (a :: b :: c :: d :: r) f)
  = (Done [a; b; c; d], mkState r f).
Proof. reflexivity. Qed.

Lemma try_ReadUint32 {wrapErr} (a b c d : byte) (r : Reader) (f : VoxFile) :
  try Binary.ReadUint32 wrapErr (mkState (a :: b :: c :: d :: r) f)
  = (Done (Binary.Uint32 [a; b; c; d]), mkState r f).
Proof. reflexivity. Qed.

Lemma try_ReadUint8 {wrapErr} (a : byte) (r : Reader) (f : VoxFile) :
  try Binary.ReadUint8 wrapErr (mkState (a :: r) f)
  = (Done (u8 a), mkState r f).
Proof. reflexivity. Qed.

Lemma try_ReadUint8_nil {wrapErr} (f : VoxFile) :
  try Binary.ReadUint8 wrapErr (mkState [] f)
  = (Fail (wrapErr EOF), mkState [] f).
Proof. reflexivity. Qed.

(** ** The monad *)

Lemma bind_ret {T U} (v : T) (k : T -> M U) (s : State) :
  bind (ret v) k s = k v s.
Proof. reflexivity. Qed.

Lemma bind_fail {T U} (e : error) (k : T -> M U) (s : State) :
  bind (fail e) k s = (Fail e, s).
Proof. reflexivity. Qed.

Lemma bind_update {U} (g : VoxFile -> VoxFile) (k : unit -> M U)
    (r : Reader) (f : VoxFile) :
  bind (update g) k (mkState r f) = k tt (mkState r (g f)).
Proof. reflexivity. Qed.

Lemma bind_Done {T U} (m : M T) (k : T -> M U) (s s' : State) (v : T) :
  m s = (Done v, s') -> bind m k s = k v s'.
Proof. unfold bind. now intros ->. Qed.

Lemma bind_Fail {T U} (m : M T) (k : T -> M U) (s s' : State) (e : error) :
  m s = (Fail e, s') -> bind m k s = (Fail e, s').
Proof. unfold bind. now intros ->. Qed.

Lemma bind_assoc {T U V} (m : M T) (f : T -> M U) (g : U -> M V)
    (s : State) :
  bind (bind m f) g s = bind m (fun x => bind (f x) g) s.
Proof.
  unfold bind. destruct (m s) as [[v | e |] s1]; reflexivity.
Qed.

Lemma bind_ext {T U} (m : M T) (f g : T -> M U) (s : State) :
  (forall v s1, f v s1 = g v s1) -> bind m f s = bind m g s.
Proof.
  intros H. unfold bind. destruct (m s) as [[v | e |] s1];
    [apply H | reflexivity | reflexivity].
Qed.

Lemma bind_Read4 {U} {wrapErr} (k : list byte -> M U) (a b c d : byte)
    (r : Reader) (f : VoxFile) :
  bind (try (Bufio.Read 4) wrapErr) k (mkState (a :: b :: c :: d :: r) f)
  = k [a; b; c; d] (mkState r f).
Proof. reflexivity. Qed.

Lemma bind_ReadUint32 {U} {wrapErr} (k : uint32 -> M U) (a b c d : byte)
    (r : Reader) (f : VoxFile) :
  bind (try Binary.ReadUint32 wrapErr) k (mkState (a :: b :: c :: d :: r) f)
  = k (Binary.Uint32 [a; b; c; d]) (mkState r f).
Proof. reflexivity. Qed.

Lemma bind_ReadUint8 {U} {wrapErr} (k : uint8 -> M U) (a : byte)
    (r : Reader) (f : VoxFile) :
  bind (try Binary.ReadUint8 wrapErr) k (mkState (a :: r) f)
  = k (u8 a) (mkState r f).
Proof. reflexivity. Qed.

Lemma bind_ReadUint8_nil {U} {wrapErr} (k : uint8 -> M U) (f : VoxFile) :
  bind (try Binary.ReadUint8 wrapErr) k (mkState [] f)
  = (Fail (wrapErr EOF), mkState [] f).
Proof. reflexivity. Qed.

(** The header of a chunk: identifier, payload size, children size. *)
Ltac read_header :=
  cbn [readChunk app];
  rewrite bind_Read4, !bind_ReadUint32;
  unfold readPayload.

(** ** Termination: the fuel is never exhausted *)

Section Bounded.

Context {T U : Type}.

Lemma bounded_ret (v : T) (s : State) : bounded 0 (ret v) s.
Proof.
  intros o s' H. inversion H; subst.
  repeat split; [discriminate | lia | intros; lia].
Qed.

Lemma bounded_fail (e : error) (s : State) : bounded 0 (@fail T e) s.
Proof.
  intros o s' H. inversion H; subst.
  repeat split; [discriminate | lia | intros; lia].
Qed.

Lemma bounded_try (k : nat) (read : Reader -> (ioError + T) * Reader)
    (wrapErr : ioError -> error) (s : State) :
  (forall r x r', read r = (x, r') ->
     (length r' <= length r)%nat /\
     (forall v, x = inr v -> (length r' + k = length r)%nat)) ->
  bounded k (try read wrapErr) s.
Proof.
  intros Hread o s' H. unfold try in H.
  destruct (read (rd s)) as [[err | v] r'] eqn:E;
    destruct (Hread _ _ _ E) as [Hle Heq];
    inversion H; subst; cbn [rd].
  - repeat split; [discriminate | exact Hle | discriminate].
  - repeat split; [discriminate | exact Hle |].
    intros _ _. rewrite (Heq v eq_refl). lia.
Qed.

Lemma bounded_bind (a b k : nat) (m : M T) (f : T -> M U) (s : State) :
  (k <= a + b)%nat ->
  bounded a m s ->
  (forall v s1, m s = (Done v, s1) ->
     (length (rd s1) + a <= length (rd s))%nat -> bounded b (f v) s1) ->
  bounded k (bind m f) s.
Proof.
  intros Hk Hm Hf o s' H. unfold bind in H.
  destruct (m s) as [[v | e |] s1] eqn:E;
    destruct (Hm _ _ E) as (Hfuel & Hle & Hdone).
  - specialize (Hdone v eq_refl).
    destruct (Hf v s1 eq_refl Hdone _ _ H) as (Hfuel' & Hle' & Hdone').
    repeat split; [exact Hfuel' | lia |].
    intros w Hw. specialize (Hdone' w Hw). lia.
  - inversion H; subst. repeat split; [discriminate | exact Hle |].
    discriminate.
  - contradiction.
Qed.

Lemma bounded_weaken (k k' : nat) (m : M T) (s : State) :
  (k' <= k)%nat -> bounded k m s -> bounded k' m s.
Proof.
  intros Hk Hm o s' H. destruct (Hm _ _ H) as (Hfuel & Hle & Hdone).
  repeat split; [exact Hfuel | exact Hle |].
  intros v Hv. specialize (Hdone v Hv). lia.
Qed.

End Bounded.

Lemma bounded_update (f : VoxFile -> VoxFile) (s : State) :
  bounded 0 (update f) s.
Proof.
  intros o s' H. inversion H; subst. cbn [rd].
  repeat split; [discriminate | lia | intros; lia].
Qed.

Lemma bounded_Read4 (wrapErr : ioError -> error) (s : State) :
  bounded 1 (try (Bufio.Read 4) wrapErr) s.
Proof.
  intros o s' H. unfold try in H.
  destruct (Bufio.Read 4 (rd s)) as [[err | v] r'] eqn:E;
    destruct (Read_length _ _ _ _ E) as [Hle Hlt];
    inversion H; subst; cbn [rd].
  - repeat split; [discriminate | exact Hle | discriminate].
  - specialize (Hlt v eq_refl).
    repeat split; [discriminate | exact Hle | intros; lia].
Qed.

Lemma bounded_ReadUint32 (wrapErr : ioError -> error) (s : State) :
  bounded 4 (try Binary.ReadUint32 wrapErr) s.
Proof. apply bounded_try. intros r x r'. apply ReadUint32_length. Qed.

Lemma bounded_ReadUint8 (wrapErr : ioError -> error) (s : State) :
  bounded 1 (try Binary.ReadUint8 wrapErr) s.
Proof. apply bounded_try. intros r x r'. apply ReadUint8_length. Qed.

Lemma bounded_readVoxels (chunkIDStr : string) (n : nat) :
  forall i s, bounded 0 (readVoxels chunkIDStr n i) s.
Proof.
  induction n as [| n IH]; intros i s; cbn [readVoxels].
  - apply bounded_ret.
  - repeat (eapply (bounded_bind 1 0);
            [lia | apply bounded_ReadUint8 | intros ? ? _ _]).
    eapply (bounded_bind 0 0); [lia | apply IH | intros ? ? _ _].
    apply bounded_ret.
Qed.

Lemma bounded_readColors (chunkIDStr : string) (n : nat) :
  forall i s, bounded 0 (readColors chunkIDStr n i) s.
Proof.
  induction n as [| n IH]; intros i s; cbn [readColors].
  - apply bounded_ret.
  - repeat (eapply (bounded_bind 1 0);
            [lia | apply bounded_ReadUint8 | intros ? ? _ _]).
    eapply (bounded_bind 0 0); [lia | apply IH | intros ? ? _ _].
    apply bounded_ret.
Qed.

Lemma bounded_skipContents (chunkIDStr : string) (chunkSize : Z)
    (fuel : nat) :
  forall totalRead s,
    (length (rd s) < fuel)%nat ->
    bounded 0 (skipContents fuel chunkIDStr totalRead chunkSize) s.
Proof.
  induction fuel as [| fuel IH]; intros totalRead s Hlen; [lia |].
  cbn [skipContents]. destruct (totalRead <? chunkSize).
  - eapply (bounded_bind 1 0); [lia | apply bounded_Read4 |].
    intros c s1 _ Hs1. apply IH. lia.
  - apply bounded_ret.
Qed.

Lemma bounded_readChildren (child : M uint32) (fuel : nat) :
  (forall s, (length (rd s) < fuel)%nat -> bounded 1 child s) ->
  forall remainingBytes s,
    (length (rd s) < fuel)%nat ->
    bounded 0 (readChildren fuel child remainingBytes) s.
Proof.
  induction fuel as [| fuel IH]; intros Hchild remainingBytes s Hlen;
    [lia |].
  cbn [readChildren]. destruct (0 <? remainingBytes).
  - eapply (bounded_bind 1 0); [lia | now apply Hchild |].
    intros v s1 _ Hs1. apply IH; [| lia].
    intros s2 Hs2. apply Hchild. lia.
  - apply bounded_ret.
Qed.

Lemma bounded_readPayload (fuel : nat) (chunkIDStr : string)
    (chunkSize : uint32) (s : State) :
  (length (rd s) < fuel)%nat ->
  bounded 0 (readPayload fuel chunkIDStr chunkSize) s.
Proof.
  intros Hlen. unfold readPayload.
  destruct (0 <? chunkSize); [| apply bounded_ret].
  destruct (chunkIDStr =? "SIZE")%string.
  { destruct (negb _); [apply bounded_fail |].
    repeat (eapply (bounded_bind 4 0);
            [lia | apply bounded_ReadUint32 | intros ? ? _ _]).
    apply bounded_update. }
  destruct (chunkIDStr =? "XYZI")%string.
  { eapply (bounded_bind 4 0);
      [lia | apply bounded_ReadUint32 | intros ? ? _ _].
    eapply (bounded_bind 0 0);
      [lia | apply bounded_readVoxels | intros ? ? _ _].
    apply bounded_update. }
  destruct (chunkIDStr =? "RGBA")%string.
  { eapply (bounded_bind 0 0);
      [lia | apply bounded_readColors | intros ? ? _ _].
    apply bounded_update. }
  now apply bounded_skipContents.
Qed.

(** A chunk that is read with success takes at least the 9 bytes of its
    header that [Read] and [binary.Read] cannot do without. *)
Lemma bounded_readChunk (fuel : nat) :
  forall s, (length (rd s) < fuel)%nat -> bounded 9 (readChunk fuel) s.
Proof.
  induction fuel as [| fuel IH]; intros s Hlen; [lia |].
  cbn [readChunk].
  eapply (bounded_bind 1 8); [lia | apply bounded_Read4 |].
  intros chunkID s1 _ Hs1.
  eapply (bounded_bind 4 4); [lia | apply bounded_ReadUint32 |].
  intros chunkSize s2 _ Hs2.
  eapply (bounded_bind 4 0); [lia | apply bounded_ReadUint32 |].
  intros chunkChildrenSize s3 _ Hs3.
  eapply (bounded_bind 0 0); [lia | apply bounded_readPayload; lia |].
  intros _ s4 _ Hs4.
  eapply (bounded_bind 0 0); [lia | | intros ? ? _ _; apply bounded_ret].
  apply bounded_readChildren; [| lia].
  intros s5 Hs5. eapply bounded_weaken; [| apply IH; exact Hs5]. lia.
Qed.

Theorem readChunk_total (s : State) :
  fst (readChunk (S (length (rd s))) s) <> OutOfFuel.
Proof.
  destruct (readChunk (S (length (rd s))) s) as [o s'] eqn:E.
  apply (bounded_readChunk (S (length (rd s))) s (Nat.lt_succ_diag_r _) _ _ E).
Qed.

Theorem Decode_total (r : Reader) : Decode r <> None.
Proof.
  unfold Decode. destruct (decodeHeader r) as [err | [version r']];
    [discriminate |].
  pose proof (readChunk_total (mkState r' (setVersion newVoxFile version)))
    as Htotal.
  cbn [rd] in Htotal.
  destruct (readChunk _ _) as [[v | e |] s']; cbn [fst] in Htotal;
    [discriminate | discriminate | contradiction].
Qed.

(** ** The fuel does not matter *)

Lemma bind_ext_bounded {T U} (a : nat) (m : M T) (f g : T -> M U)
    (s : State) :
  bounded a m s ->
  (forall v s1, m s = (Done v, s1) ->
     (length (rd s1) + a <= length (rd s))%nat -> f v s1 = g v s1) ->
  bind m f s = bind m g s.
Proof.
  intros Hm H. unfold bind.
  destruct (m s) as [[v | e |] s1] eqn:E; try reflexivity.
  destruct (Hm _ _ E) as (_ & _ & Hdone). apply H; [reflexivity |].
  now apply (Hdone v).
Qed.

Lemma skipContents_fuel (chunkIDStr : string) (chunkSize : Z) (f1 : nat) :
  forall f2 totalRead s,
    (length (rd s) < f1)%nat -> (length (rd s) < f2)%nat ->
    skipContents f1 chunkIDStr totalRead chunkSize s
    = skipContents f2 chunkIDStr totalRead chunkSize s.
Proof.
  induction f1 as [| f1 IH]; intros f2 totalRead s H1 H2; [lia |].
  destruct f2 as [| f2]; [lia |].
  cbn [skipContents]. destruct (totalRead <? chunkSize); [| reflexivity].
  apply (bind_ext_bounded 1); [apply bounded_Read4 |].
  intros c s1 _ Hs1. apply IH; lia.
Qed.

Lemma readChildren_fuel (c1 c2 : M uint32) (n1 : nat) :
  forall n2,
    (forall s, (length (rd s) < n1)%nat -> (length (rd s) < n2)%nat ->
       c1 s = c2 s /\ bounded 1 c1 s) ->
    forall remainingBytes s,
      (length (rd s) < n1)%nat -> (length (rd s) < n2)%nat ->
      readChildren n1 c1 remainingBytes s
      = readChildren n2 c2 remainingBytes s.
Proof.
  induction n1 as [| n1 IH]; intros n2 Hc remainingBytes s H1 H2; [lia |].
  destruct n2 as [| n2]; [lia |].
  cbn [readChildren]. destruct (0 <? remainingBytes); [| reflexivity].
  destruct (Hc s H1 H2) as [Heq Hbounded]. unfold bind. rewrite <- Heq.
  destruct (c1 s) as [[v | e |] s1] eqn:E; try reflexivity.
  destruct (Hbounded _ _ E) as (_ & _ & Hdone).
  specialize (Hdone v eq_refl).
  apply IH; [| lia | lia].
  intros s2 Hs2 Hs2'. apply Hc; lia.
Qed.

Lemma readPayload_fuel (f1 f2 : nat) (chunkIDStr : string)
    (chunkSize : uint32) (s : State) :
  (length (rd s) < f1)%nat -> (length (rd s) < f2)%nat ->
  readPayload f1 chunkIDStr chunkSize s
  = readPayload f2 chunkIDStr chunkSize s.
Proof.
  intros H1 H2. unfold readPayload.
  destruct (0 <? chunkSize); [| reflexivity].
  destruct (chunkIDStr =? "SIZE")%string; [reflexivity |].
  destruct (chunkIDStr =? "XYZI")%string; [reflexivity |].
  destruct (chunkIDStr =? "RGBA")%string; [reflexivity |].
  now apply skipContents_fuel.
Qed.

(** Any two amounts of fuel above the number of unread bytes give the same
    run of the chunk reader. *)
Theorem readChunk_fuel (f1 : nat) :
  forall f2 s,
    (length (rd s) < f1)%nat -> (length (rd s) < f2)%nat ->
    readChunk f1 s = readChunk f2 s.
Proof.
  induction f1 as [| f1 IH]; intros f2 s H1 H2; [lia |].
  destruct f2 as [| f2]; [lia |].
  cbn [readChunk].
  apply (bind_ext_bounded 1); [apply bounded_Read4 |].
  intros chunkID s1 _ Hs1.
  apply (bind_ext_bounded 4); [apply bounded_ReadUint32 |].
  intros chunkSize s2 _ Hs2.
  apply (bind_ext_bounded 4); [apply bounded_ReadUint32 |].
  intros chunkChildrenSize s3 _ Hs3.
  unfold bind at 1 3.
  rewrite (readPayload_fuel f1 f2) by lia.
  destruct (readPayload f2 _ chunkSize s3) as [[[] | e |] s4] eqn:E;
    try reflexivity.
  destruct (bounded_readPayload f2 _ chunkSize s3 ltac:(lia) _ _ E)
    as (_ & Hs4 & _).
  assert (Hchildren : readChildren f1 (readChunk f1) chunkChildrenSize s4
                      = readChildren f2 (readChunk f2) chunkChildrenSize s4).
  { apply readChildren_fuel; [| lia | lia].
    intros s5 Hs5 Hs5'. split; [now apply IH |].
    eapply bounded_weaken; [| apply bounded_readChunk; exact Hs5]. lia. }
  unfold bind. now rewrite Hchildren.
Qed.

(** ** The header *)

Lemma decodeHeader_header (r : Reader) :
  decodeHeader (header ++ r) = inr (150, r).
Proof. reflexivity. Qed.

Lemma Decode_header (r : Reader) :
  Decode (header ++ r)
  = match readChunk (S (length r))
            (mkState r (setVersion newVoxFile 150)) with
    | (OutOfFuel, _) => None
    | (Done _, s) =>
        Some (Some (setPalette (vox s) (instancePalette defaultPalette)),
              None)
    | (Fail err, s) =>
        Some (Some (setPalette (vox s) (instancePalette defaultPalette)),
              Some err)
    end.
Proof. reflexivity. Qed.

Lemma decodeHeader_inr (input r : Reader) (version : uint32) :
  decodeHeader input = inr (version, r) ->
  input = header ++ r /\ version = 150.
Proof.
  unfold decodeHeader.
  destruct input as [| a [| b [| c [| d r1]]]];
    cbn [Bufio.Read firstn skipn length array4 app nth Nat.eqb negb orb];
    try discriminate.
  destruct (Byte.eqb a "V") eqn:Ha; cbn [negb orb]; [| discriminate].
  destruct (Byte.eqb b "O") eqn:Hb; cbn [negb orb]; [| discriminate].
  destruct (Byte.eqb c "X") eqn:Hc; cbn [negb orb]; [| discriminate].
  destruct (Byte.eqb d " ") eqn:Hd; cbn [negb orb]; [| discriminate].
  apply Byte.byte_dec_bl in Ha, Hb, Hc, Hd. subst a b c d.
  destruct r1 as [| v0 [| v1 [| v2 [| v3 r2]]]]; try discriminate.
  change (Binary.ReadUint32 (v0 :: v1 :: v2 :: v3 :: r2))
    with (@inr ioError _ (Binary.Uint32 [v0; v1; v2; v3]), r2).
  cbv beta iota.
  destruct (Binary.Uint32 [v0; v1; v2; v3] =? CurrentVersion) eqn:Hv;
    cbn [negb]; [| discriminate].
  intros H; inversion H; subst.
  apply Z.eqb_eq in Hv.
  change CurrentVersion with (Binary.Uint32 [x96; x00; x00; x00]) in Hv.
  destruct (Uint32_inj _ _ _ _ _ _ _ _ Hv) as (-> & -> & -> & ->).
  split; [reflexivity | exact Hv].
Qed.

Lemma decodeHeader_version (v0 v1 v2 v3 : byte) (r : Reader) :
  Binary.Uint32 [v0; v1; v2; v3] <> CurrentVersion ->
  decodeHeader (list_byte_of_string "VOX " ++ [v0; v1; v2; v3] ++ r)
  = inl (ErrVersion (Binary.Uint32 [v0; v1; v2; v3]) CurrentVersion).
Proof.
  intros Hne. unfold decodeHeader.
  change (list_byte_of_string "VOX ") with ["V"; "O"; "X"; " "]%byte.
  cbn [Bufio.Read firstn skipn length array4 app nth Nat.eqb negb orb].
  change (Byte.eqb "V" "V") with true. change (Byte.eqb "O" "O") with true.
  change (Byte.eqb "X" "X") with true. change (Byte.eqb " " " ") with true.
  cbn [negb orb].
  change (Binary.ReadUint32 (v0 :: v1 :: v2 :: v3 :: r))
    with (@inr ioError _ (Binary.Uint32 [v0; v1; v2; v3]), r).
  cbv beta iota.
  replace (Binary.Uint32 [v0; v1; v2; v3] =? CurrentVersion) with false
    by (symmetry; now apply Z.eqb_neq).
  reflexivity.
Qed.

Lemma decodeHeader_version_error (input : Reader) (err : error) :
  decodeHeader input = inl err -> isVersionError err = true ->
  exists v0 v1 v2 v3 r,
    input = list_byte_of_string "VOX " ++ [v0; v1; v2; v3] ++ r /\
    Binary.Uint32 [v0; v1; v2; v3] <> CurrentVersion /\
    err = ErrVersion (Binary.Uint32 [v0; v1; v2; v3]) CurrentVersion.
Proof.
  unfold decodeHeader.
  destruct input as [| a [| b [| c [| d r1]]]];
    cbn [Bufio.Read firstn skipn length array4 app nth Nat.eqb negb orb];
    try (intros H; inversion H; subst; discriminate).
  destruct (Byte.eqb a "V") eqn:Ha; cbn [negb orb];
    [| intros H; inversion H; subst; discriminate].
  destruct (Byte.eqb b "O") eqn:Hb; cbn [negb orb];
    [| intros H; inversion H; subst; discriminate].
  destruct (Byte.eqb c "X") eqn:Hc; cbn [negb orb];
    [| intros H; inversion H; subst; discriminate].
  destruct (Byte.eqb d " ") eqn:Hd; cbn [negb orb];
    [| intros H; inversion H; subst; discriminate].
  apply Byte.byte_dec_bl in Ha, Hb, Hc, Hd. subst a b c d.
  destruct r1 as [| v0 [| v1 [| v2 [| v3 r2]]]];
    try (intros H; inversion H; subst; discriminate).
  change (Binary.ReadUint32 (v0 :: v1 :: v2 :: v3 :: r2))
    with (@inr ioError _ (Binary.Uint32 [v0; v1; v2; v3]), r2).
  cbv beta iota.
  destruct (Binary.Uint32 [v0; v1; v2; v3] =? CurrentVersion) eqn:Hv;
    cbn [negb]; [discriminate |].
  intros H _; inversion H; subst.
  exists v0, v1, v2, v3, r2. apply Z.eqb_neq in Hv. now repeat split.
Qed.

(** The header check succeeds exactly when the input starts with the
    signature "VOX " followed by the little-endian version 150; on any other
    input [Decode] returns the error of the check and no record, the chunk
    reader not being run.  A version field that reads as another number
    fails with the version error, which carries the number found and 150,
    and no other header failure produces a version error. *)
Lemma decodeHeader_gate (input : Reader) :
  (forall version r,
     decodeHeader input = inr (version, r) <->
     input = header ++ r /\ version = 150)
  /\ (forall err,
        decodeHeader input = inl err ->
        Decode input = Some (None, Some err))
  /\ (forall v0 v1 v2 v3 r,
        input = list_byte_of_string "VOX " ++ [v0; v1; v2; v3] ++ r ->
        Binary.Uint32 [v0; v1; v2; v3] <> 150 ->
        decodeHeader input
        = inl (ErrVersion (Binary.Uint32 [v0; v1; v2; v3]) 150))
  /\ (forall err,
        decodeHeader input = inl err ->
        (isVersionError err = true <->
         exists v0 v1 v2 v3 r,
           input = list_byte_of_string "VOX " ++ [v0; v1; v2; v3] ++ r /\
           Binary.Uint32 [v0; v1; v2; v3] <> 150 /\
           err = ErrVersion (Binary.Uint32 [v0; v1; v2; v3]) 150)).
Proof.
  repeat split.
  - now destruct (decodeHeader_inr _ _ _ H).
  - now destruct (decodeHeader_inr _ _ _ H).
  - intros [-> ->]. apply decodeHeader_header.
  - intros err H. unfold Decode. now rewrite H.
  - intros v0 v1 v2 v3 r -> Hne. now apply decodeHeader_version.
  - intros Hv. exact (decodeHeader_version_error _ _ H Hv).
  - intros (v0 & v1 & v2 & v3 & r & _ & _ & ->). reflexivity.
Qed.

(** ** The header on a reader with any delivery *)

(** What a [Read] delivers is a prefix of the bytes to come. *)
Lemma Delivered_Read_prefix (n : nat) (b b' : BufReader) (bs : list byte) :
  Delivered.Read n b = (inr bs, b') ->
  bs = firstn n (firstRead b) /\ unread b = bs ++ unread b'.
Proof.
  unfold Delivered.Read, firstRead, unread.
  destruct b as [[| x buf] [| block rest]]; cbn [buffered pending];
    try discriminate; intros H; inversion H; subst; cbn [buffered pending];
    (split; [reflexivity |]).
  all: cbn [concat]; rewrite ?app_nil_l;
    now rewrite (app_assoc (firstn _ _)), firstn_skipn.
Qed.

Lemma Delivered_Read_EOF (n : nat) (b b' : BufReader) (err : ioError) :
  Delivered.Read n b = (inl err, b') -> unread b = [].
Proof.
  unfold Delivered.Read, unread.
  destruct b as [[| x buf] [| block rest]]; cbn [buffered pending concat];
    try discriminate; reflexivity.
Qed.

Lemma fill_enough (pending : list (list byte)) :
  forall (need : nat) (acc : list byte),
    (need <= length (concat pending))%nat ->
    exists b',
      Delivered.fill need acc pending
      = (inr (acc ++ firstn need (concat pending)), b')
      /\ unread b' = skipn need (concat pending).
Proof.
  induction pending as [| block rest IH]; intros need acc Hneed.
  - cbn [concat length] in Hneed. assert (need = 0%nat) as -> by lia.
    eexists. split; [cbn; now rewrite app_nil_r | reflexivity].
  - destruct need as [| k].
    + eexists. split; [cbn [Delivered.fill firstn]; now rewrite app_nil_r |].
      reflexivity.
    + cbn [Delivered.fill concat].
      cbn [concat] in Hneed. rewrite length_app in Hneed.
      rewrite firstn_app, skipn_app.
      destruct (length block <? S k)%nat eqn:Hlt.
      * apply Nat.ltb_lt in Hlt.
        destruct (IH (S k - length block)%nat (acc ++ block)) as (b' & Hb' & Hu);
          [lia |].
        exists b'. rewrite Hb', Hu.
        rewrite (@firstn_all2 _ (S k) block), (@skipn_all2 _ (S k) block)
          by lia.
        now rewrite <- app_assoc.
      * apply Nat.ltb_ge in Hlt.
        replace (S k - length block)%nat with 0%nat by lia.
        eexists. split; [cbn [firstn]; now rewrite app_nil_r |].
        reflexivity.
Qed.

Lemma fill_short (pending : list (list byte)) :
  forall (need : nat) (acc : list byte),
    (length (concat pending) < need)%nat ->
    Delivered.fill need acc pending
    = (inl match acc ++ concat pending with
           | [] => EOF
           | _ :: _ => ErrUnexpectedEOF
           end, mkBufReader [] []).
Proof.
  induction pending as [| block rest IH]; intros need acc Hneed.
  - destruct need as [| k]; [cbn in Hneed; lia |].
    cbn [Delivered.fill concat]. now rewrite app_nil_r.
  - destruct need as [| k]; [lia |].
    cbn [Delivered.fill concat]. cbn [concat] in Hneed.
    rewrite length_app in Hneed.
    replace (length block <? S k)%nat with true
      by (symmetry; apply Nat.ltb_lt; lia).
    rewrite IH by lia. now rewrite <- app_assoc.
Qed.

(** [io.ReadFull] does not depend on the delivery: it returns the next [n]
    bytes whenever they exist. *)
Lemma Delivered_ReadFull_enough (n : nat) (b : BufReader) :
  (n <= length (unread b))%nat ->
  exists b',
    Delivered.ReadFull n b = (inr (firstn n (unread b)), b')
    /\ unread b' = skipn n (unread b).
Proof.
  unfold Delivered.ReadFull, unread. intros Hn.
  rewrite length_app in Hn. rewrite firstn_app, skipn_app.
  destruct (n <=? length (buffered b))%nat eqn:Hle.
  - apply Nat.leb_le in Hle.
    replace (n - length (buffered b))%nat with 0%nat by lia.
    eexists. split; [cbn [firstn]; now rewrite app_nil_r | reflexivity].
  - apply Nat.leb_gt in Hle.
    destruct (fill_enough (pending b) (n - length (buffered b))
                (buffered b)) as (b' & Hb' & Hu); [lia |].
    unfold unread in Hu. exists b'. rewrite Hb', Hu.
    now rewrite (@firstn_all2 _ n (buffered b)),
      (@skipn_all2 _ n (buffered b)) by lia.
Qed.

Lemma Delivered_ReadFull_short (n : nat) (b : BufReader) :
  (length (unread b) < n)%nat ->
  Delivered.ReadFull n b
  = (inl match unread b with
         | [] => EOF
         | _ :: _ => ErrUnexpectedEOF
         end, mkBufReader [] []).
Proof.
  unfold Delivered.ReadFull, unread. intros Hn.
  rewrite length_app in Hn.
  replace (n <=? length (buffered b))%nat with false
    by (symmetry; apply Nat.leb_gt; lia).
  apply fill_short. lia.
Qed.

(** It agrees with [Binary.ReadFull] on the bytes to come. *)
Lemma Delivered_ReadUint32 (b : BufReader) :
  exists b',
    Delivered.ReadUint32 b = (fst (Binary.ReadUint32 (unread b)), b')
    /\ unread b' = snd (Binary.ReadUint32 (unread b)).
Proof.
  unfold Delivered.ReadUint32, Binary.ReadUint32, Binary.ReadFull.
  destruct (Nat.le_gt_cases 4 (length (unread b))) as [Hle | Hgt].
  - destruct (Delivered_ReadFull_enough 4 b Hle) as (b' & -> & Hu).
    exists b'. rewrite Hu.
    replace (length (unread b) <? 4)%nat with false
      by (symmetry; apply Nat.ltb_ge; lia).
    destruct (unread b); [cbn in Hle; lia |]. split; reflexivity.
  - rewrite (Delivered_ReadFull_short 4 b Hgt).
    exists (mkBufReader [] []).
    replace (length (unread b) <? 4)%nat with true
      by (symmetry; apply Nat.ltb_lt; lia).
    destruct (unread b); split; reflexivity.
Qed.

(** A [Read] that finds [n] bytes in the buffer, or in the next delivery
    when the buffer is empty, returns the next [n] bytes. *)
Lemma Delivered_Read_full (n : nat) (b : BufReader) :
  (0 < n <= length (firstRead b))%nat ->
  exists b',
    Delivered.Read n b = (inr (firstn n (unread b)), b')
    /\ unread b' = skipn n (unread b).
Proof.
  unfold Delivered.Read, firstRead, unread.
  destruct b as [[| x buf] [| block rest]]; cbn [buffered pending concat];
    intros Hn; rewrite ?app_nil_l, ?app_nil_r.
  - cbn [length] in Hn. lia.
  - rewrite firstn_app, skipn_app.
    replace (n - length block)%nat with 0%nat by lia.
    eexists. split; [cbn [firstn]; now rewrite app_nil_r | reflexivity].
  - eexists. split; [reflexivity |]. cbn [buffered pending concat].
    now rewrite app_nil_r.
  - rewrite firstn_app, skipn_app.
    replace (n - length (x :: buf))%nat with 0%nat by lia.
    eexists. split; [cbn [firstn]; now rewrite app_nil_r | reflexivity].
Qed.

(** On a reader whose first [Read] finds 4 bytes, [DecodeOn] stops where
    the header check of the file stops on the bytes to come, and else
    hands the chunk reader a reader with the bytes after the header. *)
Lemma DecodeOn_decodeHeader
    (readChunkOn : BufReader -> VoxFile -> VoxFile * option error)
    (r : BufReader) :
  (4 <= length (firstRead r))%nat ->
  match decodeHeader (unread r) with
  | inl err => DecodeOn readChunkOn r = (None, Some err)
  | inr (version, rest) =>
      exists r2,
        unread r2 = rest
        /\ DecodeOn readChunkOn r
           = (let (voxelFile', err) :=
                readChunkOn r2 (setVersion newVoxFile version) in
              (Some (setPalette voxelFile'
                       (instancePalette defaultPalette)), err))
  end.
Proof.
  intros Hfirst.
  destruct (Delivered_Read_full 4 r) as (r1 & Hread & Hu1); [lia |].
  destruct (Delivered_ReadUint32 r1) as (r2 & Hversion & Hu2).
  unfold DecodeOn, decodeHeader. rewrite Hread, Hversion, Hu1.
  assert (Hlen : (4 <= length (unread r))%nat).
  { destruct (Delivered_Read_prefix _ _ _ _ Hread) as [_ Hsplit].
    rewrite Hsplit, length_app, length_firstn.
    unfold firstRead, unread in *.
    destruct r as [[| x buf] [| block rest]]; cbn [buffered pending] in *;
      cbn [concat length] in *; rewrite ?length_app; cbn [length] in *; lia. }
  unfold Bufio.Read.
  destruct (unread r) as [| b0 u] eqn:Hu; [cbn [length] in Hlen; lia |].
  cbv zeta.
  destruct (negb (length (firstn 4 (b0 :: u)) =? 4)%nat || _ || _ || _ || _);
    [reflexivity |].
  rewrite Hu1 in Hu2.
  destruct (Binary.ReadUint32 (skipn 4 (b0 :: u))) as [[err | version] rest];
    cbn [fst snd] in *; [reflexivity |].
  destruct (negb (version =? CurrentVersion)); [reflexivity |].
  exists r2. split; [exact Hu2 | reflexivity].
Qed.

(** On every delivery [DecodeOn] returns a record only if the bytes to
    come start with the header. *)
Lemma DecodeOn_record_header
    (readChunkOn : BufReader -> VoxFile -> VoxFile * option error)
    (r : BufReader) (voxelFile : VoxFile) (err : option error) :
  DecodeOn readChunkOn r = (Some voxelFile, err) ->
  exists rest, unread r = header ++ rest.
Proof.
  intros Hdecode.
  assert (Hfirst : (4 <= length (firstRead r))%nat).
  { revert Hdecode. unfold DecodeOn.
    destruct (Delivered.Read 4 r) as [[e | bs] r1] eqn:Hread;
      [discriminate |].
    destruct (Delivered_Read_prefix _ _ _ _ Hread) as [Hbs _].
    cbv zeta. destruct (length bs =? 4)%nat eqn:Hc; [| discriminate].
    apply Nat.eqb_eq in Hc. rewrite Hbs, length_firstn in Hc. lia. }
  pose proof (DecodeOn_decodeHeader readChunkOn r Hfirst) as Hgate.
  destruct (decodeHeader (unread r)) as [e | [version rest]] eqn:Hheader.
  - rewrite Hgate in Hdecode. discriminate.
  - exists rest. now destruct (decodeHeader_inr _ _ _ Hheader).
Qed.

(** The header gate on a reader whose first [Read] finds 4 bytes: the
    chunk reader is run, on the bytes after the header and a record with
    version 150, exactly when the bytes to come start with the header. *)
Lemma DecodeOn_gate
    (readChunkOn : BufReader -> VoxFile -> VoxFile * option error)
    (r : BufReader) :
  (4 <= length (firstRead r))%nat ->
  (forall rest,
     unread r = header ++ rest ->
     exists r2,
       unread r2 = rest
       /\ DecodeOn readChunkOn r
          = (let (voxelFile', err) :=
               readChunkOn r2 (setVersion newVoxFile 150) in
             (Some (setPalette voxelFile' (instancePalette defaultPalette)),
              err)))
  /\ ((forall rest, unread r <> header ++ rest) ->
      exists err,
        decodeHeader (unread r) = inl err
        /\ DecodeOn readChunkOn r = (None, Some err)).
Proof.
  intros Hfirst.
  pose proof (DecodeOn_decodeHeader readChunkOn r Hfirst) as Hgate.
  split.
  - intros rest Hu. rewrite Hu, decodeHeader_header in Hgate. exact Hgate.
  - intros Hno.
    destruct (decodeHeader (unread r)) as [e | [version rest]] eqn:Hheader.
    + now exists e.
    + destruct (decodeHeader_inr _ _ _ Hheader) as [Hu _].
      now destruct (Hno rest).
Qed.

(** [Decode] is [DecodeOn] on a source that delivers all its bytes on the
    first [Read], with [readChunk] for the chunk reader. *)
Lemma Decode_DecodeOn (input : Reader) :
  Decode input
  = Some (DecodeOn readChunkAtOnce (NewReader (atOnce input))).
Proof.
  destruct (Nat.le_gt_cases 4 (length input)) as [Hle | Hgt].
  - assert (Hfirst : (4 <= length (firstRead (NewReader (atOnce input))))%nat)
      by (destruct input; [cbn in Hle; lia | exact Hle]).
    assert (Hu : unread (NewReader (atOnce input)) = input)
      by (destruct input; [reflexivity | apply app_nil_r]).
    pose proof (DecodeOn_decodeHeader readChunkAtOnce _ Hfirst) as Hgate.
    pose proof (Decode_total input) as Htotal.
    rewrite Hu in Hgate. unfold Decode in *.
    destruct (decodeHeader input) as [e | [version rest]].
    + now rewrite Hgate.
    + destruct Hgate as (r2 & Hr2 & ->). unfold readChunkAtOnce.
      rewrite Hr2. cbv zeta in *.
      destruct (readChunk _ _) as [[v | e |] s];
        [reflexivity | reflexivity | contradiction].
  - destruct input as [| a [| b [| c [| d rest]]]];
      [reflexivity | reflexivity | reflexivity | reflexivity |].
    cbn [length] in Hgt. lia.
Qed.

(** The header gate of [Decode]: a record is returned exactly for the
    inputs that start with the header, the chunk reader being run on what
    follows it; every other input fails with the error of the header check
    and no record. *)
Lemma Decode_gate (input : Reader) :
  ((exists voxelFile err, Decode input = Some (Some voxelFile, err))
   <-> exists r, input = header ++ r)
  /\ ((exists err, Decode input = Some (None, Some err))
      <-> forall r, input <> header ++ r).
Proof.
  assert (Hrecord : forall r,
            exists voxelFile err,
              Decode (header ++ r) = Some (Some voxelFile, err)).
  { intros r. pose proof (Decode_total (header ++ r)) as Htotal.
    rewrite Decode_header in *.
    destruct (readChunk _ _) as [[v | e |] s];
      [eauto | eauto | contradiction]. }
  split; split.
  - intros (voxelFile & err & Hdecode).
    rewrite Decode_DecodeOn in Hdecode. inversion Hdecode as [Hon].
    destruct (DecodeOn_record_header _ _ _ _ Hon) as (rest & Hrest).
    exists rest. rewrite <- Hrest.
    destruct input; [reflexivity | symmetry; apply app_nil_r].
  - intros (r & ->). apply Hrecord.
  - intros (err & Hdecode) r ->.
    destruct (Hrecord r) as (voxelFile & err' & Hsome).
    rewrite Hsome in Hdecode. discriminate.
  - intros Hno. unfold Decode.
    destruct (decodeHeader input) as [e | [version r]] eqn:Hheader.
    + now exists e.
    + destruct (decodeHeader_inr _ _ _ Hheader) as [Hu _].
      now destruct (Hno r).
Qed.

(** C6 at a source that delivers one byte per [Read].  The bytes to come
    are a valid file, the header and an empty root chunk, which [Decode]
    accepts when they are delivered at once.  Here the [Read] of line 88
    returns 1 byte, the test of line 92 finds [c != 4], and [Decode]
    returns the signature error and no record, whatever the chunk reader
    would do: the first 8 bytes are the signature and the version 150, and
    the header is not passed. *)
Theorem C6_short_first_read_rejected :
  unread (NewReader oneByteSource) = header ++ chunkHeader "MAIN" zero4 zero4
  /\ (forall readChunkOn,
        DecodeOn readChunkOn (NewReader oneByteSource)
        = (None, Some (ErrMagic ["V"; x00; x00; x00]%byte)))
  /\ Decode (header ++ chunkHeader "MAIN" zero4 zero4)
     = Some (Some (mkVoxFile 150 0 0 0 [] (instancePalette defaultPalette)),
             None)
  /\ DecodeOn readChunkAtOnce
       (NewReader (atOnce (header ++ chunkHeader "MAIN" zero4 zero4)))
     = (Some (mkVoxFile 150 0 0 0 [] (instancePalette defaultPalette)),
        None).
Proof. repeat split. Qed.

(** ** Chunks without a payload *)

(** C9. A chunk whose declared payload size is 0 gets no type-specific
    processing, whatever its identifier (SIZE, XYZI and RGBA included): the
    payload block returns at once, without an error and with the record and
    the stream as they were, and the reader goes from the 12 header bytes
    straight to the children loop; with no children either, the chunk is
    read with success and only its header has been consumed. *)
Theorem C9_empty_payload_not_processed
    (fuel : nat) (a b c d k0 k1 k2 k3 : byte) (r : Reader) (f : VoxFile) :
  (forall chunkIDStr s, readPayload fuel chunkIDStr 0 s = (Done tt, s))
  /\
  readChunk (S fuel)
    (mkState ([a; b; c; d] ++ zero4 ++ [k0; k1; k2; k3] ++ r) f)
  = (readChildren fuel (readChunk fuel) (Binary.Uint32 [k0; k1; k2; k3]) ;;;
     ret 12) (mkState r f)
  /\
  readChunk (S fuel) (mkState ([a; b; c; d] ++ zero4 ++ zero4 ++ r) f)
  = (Done 12, mkState r f).
Proof.
  split; [reflexivity |].
  split; unfold zero4; read_header; rewrite !Uint32_zero;
    cbn [Z.ltb Z.compare]; rewrite bind_ret.
  - reflexivity.
  - destruct fuel; reflexivity.
Qed.

Lemma C9_empty_payload_not_processed_witness :
  readChunk 1 (mkState (chunkHeader "SIZE" zero4 zero4) newVoxFile)
  = (Done 12, mkState [] newVoxFile)
  /\ readChunk 1 (mkState (chunkHeader "XYZI" zero4 zero4) newVoxFile)
     = (Done 12, mkState [] newVoxFile)
  /\ readChunk 1 (mkState (chunkHeader "RGBA" zero4 zero4) newVoxFile)
     = (Done 12, mkState [] newVoxFile).
Proof.
  split; [| split].
  - exact (proj2 (proj2 (C9_empty_payload_not_processed
                           0 "S" "I" "Z" "E" x00 x00 x00 x00 []
                           newVoxFile))).
  - exact (proj2 (proj2 (C9_empty_payload_not_processed
                           0 "X" "Y" "Z" "I" x00 x00 x00 x00 []
                           newVoxFile))).
  - exact (proj2 (proj2 (C9_empty_payload_not_processed
                           0 "R" "G" "B" "A" x00 x00 x00 x00 []
                           newVoxFile))).
Defined.

(** ** The dimensions chunk *)

(** C5, as stated, fails on a SIZE chunk that declares payload size 0: the
    [chunkSize > 0] guard keeps the size check from running and the file
    decodes without an error. *)
Lemma C5_size_zero_is_accepted :
  Decode (header ++ chunkHeader "SIZE" zero4 zero4)
  = Some (Some (setPalette (setVersion newVoxFile 150)
                  (instancePalette defaultPalette)),
          None).
Proof. reflexivity. Qed.

(** The size check of the SIZE handler, at any fuel and record. *)
Lemma readChunk_SIZE_not_12 (fuel : nat) (s0 s1 s2 s3 k0 k1 k2 k3 : byte)
    (r : Reader) (f : VoxFile) :
  Binary.Uint32 [s0; s1; s2; s3] <> 0 ->
  Binary.Uint32 [s0; s1; s2; s3] <> 12 ->
  readChunk (S fuel)
    (mkState (chunkHeader "SIZE" [s0; s1; s2; s3] [k0; k1; k2; k3] ++ r) f)
  = (Fail (ErrSizeNot12 "SIZE" (Binary.Uint32 [s0; s1; s2; s3])),
     mkState r f).
Proof.
  intros Hnz Hne. unfold chunkHeader.
  change (list_byte_of_string "SIZE") with ["S"; "I"; "Z"; "E"]%byte.
  read_header.
  pose proof (Uint32_range [s0; s1; s2; s3]) as Hrange.
  replace (0 <? Binary.Uint32 [s0; s1; s2; s3]) with true
    by (symmetry; apply Z.ltb_lt; lia).
  change (string_of_list_byte (array4 ["S"; "I"; "Z"; "E"]%byte))
    with "SIZE"%string.
  cbn [String.eqb Ascii.eqb Bool.eqb].
  replace (Binary.Uint32 [s0; s1; s2; s3] =? 12) with false
    by (symmetry; apply Z.eqb_neq; exact Hne).
  reflexivity.
Qed.

(** C5, amended. A SIZE chunk whose declared payload size is neither 0 nor
    12 makes the chunk reader fail, before any payload byte is read, with
    the structural error that reports the size found; [Decode] returns that
    error for a file whose root chunk it is, and for a file where it is the
    first child of a root chunk without payload. *)
Theorem C5_size_chunk_wrong_payload_size
    (fuel : nat) (s0 s1 s2 s3 k0 k1 k2 k3 : byte) (r : Reader)
    (f : VoxFile) :
  let chunkSize := Binary.Uint32 [s0; s1; s2; s3] in
  let chunk := chunkHeader "SIZE" [s0; s1; s2; s3] [k0; k1; k2; k3] ++ r in
  chunkSize <> 0 -> chunkSize <> 12 ->
  readChunk (S fuel) (mkState chunk f)
  = (Fail (ErrSizeNot12 "SIZE" chunkSize), mkState r f)
  /\ isVersionError (ErrSizeNot12 "SIZE" chunkSize) = false
  /\ (exists voxelFile,
        Decode (header ++ chunk)
        = Some (voxelFile, Some (ErrSizeNot12 "SIZE" chunkSize)))
  /\ (forall a b c d c0 c1 c2 c3,
        Binary.Uint32 [c0; c1; c2; c3] <> 0 ->
        exists voxelFile,
          Decode (header ++ [a; b; c; d] ++ zero4 ++ [c0; c1; c2; c3]
                         ++ chunk)
          = Some (voxelFile, Some (ErrSizeNot12 "SIZE" chunkSize))).
Proof.
  intros chunkSize chunk Hnz Hne.
  split; [now apply readChunk_SIZE_not_12 |]. split; [reflexivity |]. split.
  - rewrite Decode_header. subst chunk chunkSize.
    rewrite readChunk_SIZE_not_12 by assumption. eexists. reflexivity.
  - intros a b c d c0 c1 c2 c3 Hchildren.
    rewrite Decode_header. unfold zero4. read_header.
    rewrite Uint32_zero. cbn [Z.ltb Z.compare]. rewrite bind_ret.
    pose proof (Uint32_range [c0; c1; c2; c3]) as Hrange.
    subst chunk. unfold chunkHeader at 1.
    change (list_byte_of_string "SIZE") with ["S"; "I"; "Z"; "E"]%byte.
    cbn [length app readChildren].
    replace (0 <? Binary.Uint32 [c0; c1; c2; c3]) with true
      by (symmetry; apply Z.ltb_lt; lia).
    rewrite bind_assoc.
    erewrite bind_Fail
      by (apply (readChunk_SIZE_not_12 _ s0 s1 s2 s3 k0 k1 k2 k3 r);
          assumption).
    eexists. reflexivity.
Qed.

Lemma C5_size_chunk_wrong_payload_size_witness :
  readChunk 1
    (mkState (chunkHeader "SIZE" [x08; x00; x00; x00] zero4 ++ [x01])
       newVoxFile)
  = (Fail (ErrSizeNot12 "SIZE" 8), mkState [x01] newVoxFile)
  /\
  readChunk 1
    (mkState (chunkHeader "SIZE" [x10; x00; x00; x00] zero4 ++ [x01])
       newVoxFile)
  = (Fail (ErrSizeNot12 "SIZE" 16), mkState [x01] newVoxFile).
Proof.
  split.
  - apply (C5_size_chunk_wrong_payload_size
             0 x08 x00 x00 x00 x00 x00 x00 x00 [x01] newVoxFile);
      vm_compute; discriminate.
  - apply (C5_size_chunk_wrong_payload_size
             0 x10 x00 x00 x00 x00 x00 x00 x00 [x01] newVoxFile);
      vm_compute; discriminate.
Defined.

(** ** The voxel-array chunk *)

Lemma voxelsOf_length (n : nat) :
  forall bs, (4 * n <= length bs)%nat -> length (voxelsOf n bs) = n.
Proof.
  induction n as [| n IH]; intros bs Hlen; [reflexivity |].
  destruct bs as [| x [| y [| z [| c bs]]]]; cbn [length] in Hlen; try lia.
  cbn [voxelsOf length]. f_equal. apply IH. lia.
Qed.

Lemma voxelsOf_nth_error (n : nat) :
  forall bs k,
    (4 * n <= length bs)%nat -> (k < n)%nat ->
    nth_error (voxelsOf n bs) k
    = Some (mkVoxel (u8 (nth (4 * k) bs x00)) (u8 (nth (4 * k + 1) bs x00))
                    (u8 (nth (4 * k + 2) bs x00))
                    (u8 (nth (4 * k + 3) bs x00))).
Proof.
  induction n as [| n IH]; intros bs k Hlen Hk; [lia |].
  destruct bs as [| x [| y [| z [| c bs]]]]; cbn [length] in Hlen; try lia.
  cbn [voxelsOf]. destruct k as [| k].
  - reflexivity.
  - cbn [nth_error]. rewrite IH by lia.
    replace (4 * S k)%nat with (S (S (S (S (4 * k))))) by lia.
    reflexivity.
Qed.

(** The voxel loop succeeds exactly when the stream still holds [4 * n]
    bytes, and then it has read these and nothing else. *)
Lemma readVoxels_enough (chunkIDStr : string) (n : nat) :
  forall i tail f,
    (4 * n <= length tail)%nat ->
    readVoxels chunkIDStr n i (mkState tail f)
    = (Done (voxelsOf n tail), mkState (skipn (4 * n) tail) f).
Proof.
  induction n as [| n IH]; intros i tail f Hlen; [reflexivity |].
  destruct tail as [| x [| y [| z [| c tail]]]]; cbn [length] in Hlen;
    try lia.
  cbn [readVoxels]. rewrite !bind_ReadUint8.
  rewrite (bind_Done _ _ _ _ _ (IH (i + 1) tail f ltac:(lia))).
  replace (4 * S n)%nat with (S (S (S (S (4 * n))))) by lia.
  reflexivity.
Qed.

Lemma readVoxels_Done (chunkIDStr : string) (n : nat) :
  forall i tail f voxels s',
    readVoxels chunkIDStr n i (mkState tail f) = (Done voxels, s') ->
    (4 * n <= length tail)%nat.
Proof.
  induction n as [| n IH]; intros i tail f voxels s' H; [cbn; lia |].
  cbn [readVoxels] in H.
  destruct tail as [| x tail];
    [rewrite bind_ReadUint8_nil in H; discriminate |].
  rewrite bind_ReadUint8 in H.
  destruct tail as [| y tail];
    [rewrite bind_ReadUint8_nil in H; discriminate |].
  rewrite bind_ReadUint8 in H.
  destruct tail as [| z tail];
    [rewrite bind_ReadUint8_nil in H; discriminate |].
  rewrite bind_ReadUint8 in H.
  destruct tail as [| c tail];
    [rewrite bind_ReadUint8_nil in H; discriminate |].
  rewrite bind_ReadUint8 in H.
  unfold bind at 1 in H.
  destruct (readVoxels chunkIDStr n (i + 1) (mkState tail f))
    as [[vs | e |] s1] eqn:E; try discriminate.
  apply IH in E. cbn [length]. lia.
Qed.

(** An XYZI chunk whose payload is the count followed by [tail]: the voxel
    loop, the assignment of its result, then the children loop. *)
Lemma readChunk_XYZI (fuel : nat)
    (s0 s1 s2 s3 k0 k1 k2 k3 n0 n1 n2 n3 : byte) (tail : Reader)
    (f : VoxFile) :
  Binary.Uint32 [s0; s1; s2; s3] <> 0 ->
  readChunk (S fuel)
    (mkState (chunkHeader "XYZI" [s0; s1; s2; s3] [k0; k1; k2; k3]
              ++ [n0; n1; n2; n3] ++ tail) f)
  = (voxels <- readVoxels "XYZI"
                 (Z.to_nat (Binary.Uint32 [n0; n1; n2; n3])) 0 ;;
     update (fun f => setVoxels f voxels) ;;;
     readChildren fuel (readChunk fuel) (Binary.Uint32 [k0; k1; k2; k3]) ;;;
     ret (wrap32 (Binary.Uint32 [s0; s1; s2; s3] + 12)))
    (mkState tail f).
Proof.
  intros Hnz. unfold chunkHeader.
  change (list_byte_of_string "XYZI") with ["X"; "Y"; "Z"; "I"]%byte.
  read_header.
  pose proof (Uint32_range [s0; s1; s2; s3]) as Hrange.
  replace (0 <? Binary.Uint32 [s0; s1; s2; s3]) with true
    by (symmetry; apply Z.ltb_lt; lia).
  change (string_of_list_byte (array4 ["X"; "Y"; "Z"; "I"]%byte))
    with "XYZI"%string.
  cbn [String.eqb Ascii.eqb Bool.eqb].
  rewrite bind_assoc, bind_ReadUint32, bind_assoc.
  reflexivity.
Qed.

(** C7, the example as stated, fails: the payload 05 00 00 00 | 01 02 03 04
    declares 5 voxels, not 1.  A chunk that ends after these 8 bytes is
    rejected at voxel #1 and leaves the voxel sequence as it was; followed
    by 16 more bytes it yields 5 voxels. *)
Lemma C7_example_declares_five_voxels :
  Binary.Uint32 [x05; x00; x00; x00] = 5
  /\ readChunk 1
       (mkState (chunkHeader "XYZI" [x08; x00; x00; x00] zero4
                 ++ [x05; x00; x00; x00] ++ [x01; x02; x03; x04])
                newVoxFile)
     = (Fail (ErrVoxel "XYZI" 1 EOF), mkState [] newVoxFile)
  /\ readChunk 1
       (mkState (chunkHeader "XYZI" [x18; x00; x00; x00] zero4
                 ++ [x05; x00; x00; x00] ++ [x01; x02; x03; x04]
                 ++ [x05; x06; x07; x08] ++ [x09; x0a; x0b; x0c]
                 ++ [x0d; x0e; x0f; x10] ++ [x11; x12; x13; x14])
                newVoxFile)
     = (Done 36,
        mkState []
          (setVoxels newVoxFile
             [mkVoxel 1 2 3 4; mkVoxel 5 6 7 8; mkVoxel 9 10 11 12;
              mkVoxel 13 14 15 16; mkVoxel 17 18 19 20])).
Proof. repeat split. Qed.

(** C7, amended example. An XYZI chunk with a payload that declares count
    N is read with success only if the 4 * N bytes after the count are
    there.  With these bytes at hand its payload handler succeeds: the
    record then holds exactly N voxels, the k-th built from bytes
    4k .. 4k+3 after the count as X, Y, Z and palette index, whatever voxel
    sequence it held before, the stream stands right after them and the
    children loop goes on from there; a chunk without children is read
    with success, and [Decode] of a file whose root chunk it is returns
    these N voxels.  The payload 01 00 00 00 | 01 02 03 04 is count 1 and
    the voxel (1, 2, 3, 4). *)
Theorem C7_voxel_array_decoded_in_file_order
    (fuel : nat) (s0 s1 s2 s3 k0 k1 k2 k3 n0 n1 n2 n3 : byte)
    (tail : Reader) (f : VoxFile) :
  let chunkSize := Binary.Uint32 [s0; s1; s2; s3] in
  let N := Z.to_nat (Binary.Uint32 [n0; n1; n2; n3]) in
  let chunk children :=
    chunkHeader "XYZI" [s0; s1; s2; s3] children
    ++ [n0; n1; n2; n3] ++ tail in
  let decoded :=
    mkState (skipn (4 * N) tail) (setVoxels f (voxelsOf N tail)) in
  chunkSize <> 0 ->
  (forall v s',
     readChunk (S fuel) (mkState (chunk [k0; k1; k2; k3]) f) = (Done v, s') ->
     (4 * N <= length tail)%nat)
  /\ ((4 * N <= length tail)%nat ->
      readChunk (S fuel) (mkState (chunk [k0; k1; k2; k3]) f)
      = (readChildren fuel (readChunk fuel)
           (Binary.Uint32 [k0; k1; k2; k3]) ;;;
         ret (wrap32 (chunkSize + 12))) decoded
      /\ readChunk (S fuel) (mkState (chunk zero4) f)
         = (Done (wrap32 (chunkSize + 12)), decoded)
      /\ Decode (header ++ chunk zero4)
         = Some (Some (mkVoxFile 150 0 0 0 (voxelsOf N tail)
                         (instancePalette defaultPalette)), None)
      /\ length (Voxels (vox decoded)) = N
      /\ forall k, (k < N)%nat ->
           nth_error (Voxels (vox decoded)) k
           = Some (mkVoxel (u8 (nth (4 * k) tail x00))
                           (u8 (nth (4 * k + 1) tail x00))
                           (u8 (nth (4 * k + 2) tail x00))
                           (u8 (nth (4 * k + 3) tail x00))))
  /\ Binary.Uint32 [x01; x00; x00; x00] = 1
  /\ readChunk (S fuel)
       (mkState (chunkHeader "XYZI" [x08; x00; x00; x00] zero4
                 ++ [x01; x00; x00; x00] ++ [x01; x02; x03; x04]) f)
     = (Done 20, mkState [] (setVoxels f [mkVoxel 1 2 3 4])).
Proof.
  intros chunkSize N chunk decoded Hnz.
  split; [| split; [| split; [reflexivity | destruct fuel; reflexivity]]].
  - intros v s' Hdone. subst chunk. cbv beta in Hdone.
    rewrite readChunk_XYZI in Hdone by exact Hnz.
    unfold bind at 1 in Hdone.
    destruct (readVoxels "XYZI" _ 0 (mkState tail f))
      as [[vs | e |] st] eqn:E; try discriminate.
    exact (readVoxels_Done _ _ _ _ _ _ _ E).
  - intros Hlen.
    assert (Hchunk : forall fuel' f' c0 c1 c2 c3,
              readChunk (S fuel') (mkState (chunk [c0; c1; c2; c3]) f')
              = (readChildren fuel' (readChunk fuel')
                   (Binary.Uint32 [c0; c1; c2; c3]) ;;;
                 ret (wrap32 (chunkSize + 12)))
                  (mkState (skipn (4 * N) tail)
                     (setVoxels f' (voxelsOf N tail)))).
    { intros fuel' f' c0 c1 c2 c3. subst chunk. cbv beta.
      rewrite readChunk_XYZI by exact Hnz.
      rewrite (bind_Done _ _ _ _ _
                 (readVoxels_enough "XYZI" N 0 tail f' Hlen)).
      now rewrite bind_update. }
    split; [apply Hchunk |]. split; [| split].
    + unfold zero4. rewrite Hchunk, Uint32_zero.
      destruct fuel; reflexivity.
    + rewrite Decode_header. unfold zero4. rewrite Hchunk, Uint32_zero.
      reflexivity.
    + subst decoded. cbn [vox setVoxels Voxels].
      split; [now apply voxelsOf_length |].
      intros k Hk. now apply voxelsOf_nth_error.
Qed.

Lemma C7_voxel_array_decoded_in_file_order_witness :
  readChunk 1
    (mkState (chunkHeader "XYZI" [x08; x00; x00; x00] zero4
              ++ [x01; x00; x00; x00] ++ [x01; x02; x03; x04; xff])
       (setVoxels newVoxFile [mkVoxel 9 9 9 9; mkVoxel 8 8 8 8]))
  = (Done 20, mkState [xff] (setVoxels newVoxFile [mkVoxel 1 2 3 4])).
Proof.
  refine (proj1 (proj2 (proj1 (proj2
            (C7_voxel_array_decoded_in_file_order
               0 x08 x00 x00 x00 x00 x00 x00 x00 x01 x00 x00 x00
               [x01; x02; x03; x04; xff] _ _)) _))).
  - vm_compute. discriminate.
  - vm_compute. lia.
Defined.

(** ** Unknown chunks *)

(** With the bytes at hand the skip loop makes [n] reads of 4 bytes, [n]
    the least number with [chunkSize <= totalRead + 4 * n]: what it takes
    off the stream is the payload size rounded up to a multiple of 4. *)
Lemma skipContents_rounds_up (chunkIDStr : string) (chunkSize : Z)
    (n : nat) :
  forall fuel totalRead r f,
    (n <= fuel)%nat -> (4 * n <= length r)%nat ->
    chunkSize <= totalRead + 4 * Z.of_nat n ->
    (n = 0%nat \/ totalRead + 4 * (Z.of_nat n - 1) < chunkSize) ->
    skipContents fuel chunkIDStr totalRead chunkSize (mkState r f)
    = (Done tt, mkState (skipn (4 * n) r) f).
Proof.
  induction n as [| n IH]; intros fuel totalRead r f Hfuel Hlen Hle Hlt.
  - destruct fuel; cbn [skipContents];
      (replace (totalRead <? chunkSize) with false
         by (symmetry; apply Z.ltb_ge; lia));
      reflexivity.
  - destruct Hlt as [Hlt | Hlt]; [discriminate |].
    destruct fuel as [| fuel]; [lia |].
    destruct r as [| a [| b [| c [| d r]]]]; cbn [length] in Hlen; try lia.
    cbn [skipContents].
    replace (totalRead <? chunkSize) with true
      by (symmetry; apply Z.ltb_lt; lia).
    rewrite bind_Read4. cbn [length].
    replace (4 * S n)%nat with (S (S (S (S (4 * n))))) by lia.
    cbn [skipn]. apply IH; lia.
Qed.

(** A chunk with an identifier that is none of SIZE, XYZI and RGBA, a
    payload and no children: read with success, the record untouched, and
    the stream advanced by the payload size rounded up to a multiple of 4,
    provided that many bytes are there. *)
Lemma readChunk_unknown (fuel : nat) (a b c d s0 s1 s2 s3 : byte)
    (r : Reader) (f : VoxFile) :
  let chunkIDStr := string_of_list_byte [a; b; c; d] in
  let chunkSize := Binary.Uint32 [s0; s1; s2; s3] in
  let n := Z.to_nat ((chunkSize + 3) / 4) in
  (chunkIDStr =? "SIZE")%string = false ->
  (chunkIDStr =? "XYZI")%string = false ->
  (chunkIDStr =? "RGBA")%string = false ->
  chunkSize <> 0 -> (n <= fuel)%nat -> (4 * n <= length r)%nat ->
  readChunk (S fuel)
    (mkState ([a; b; c; d] ++ [s0; s1; s2; s3] ++ zero4 ++ r) f)
  = (Done (wrap32 (chunkSize + 12)), mkState (skipn (4 * n) r) f).
Proof.
  intros chunkIDStr chunkSize n HSIZE HXYZI HRGBA Hnz Hfuel Hlen.
  unfold zero4. read_header.
  change (string_of_list_byte (array4 [a; b; c; d])) with chunkIDStr.
  fold chunkSize. rewrite HSIZE, HXYZI, HRGBA, Uint32_zero.
  pose proof (Uint32_range [s0; s1; s2; s3]) as Hrange.
  fold chunkSize in Hrange.
  replace (0 <? chunkSize) with true by (symmetry; apply Z.ltb_lt; lia).
  assert (Hn : Z.of_nat n = (chunkSize + 3) / 4)
    by (subst n; apply Z2Nat.id, Z.div_pos; lia).
  pose proof (Z.div_mod (chunkSize + 3) 4 ltac:(lia)) as Hdiv.
  pose proof (Z.mod_pos_bound (chunkSize + 3) 4 ltac:(lia)) as Hmod.
  rewrite (bind_Done _ _ _ _ _
             (skipContents_rounds_up chunkIDStr chunkSize n fuel 0 r f
                Hfuel Hlen ltac:(lia) ltac:(right; lia))).
  destruct fuel; reflexivity.
Qed.

(** C8 at the one-byte payload: the skip loop reads 4 bytes, the payload
    and the first three bytes of the next chunk, and the reader reports 13;
    the SIZE chunk that follows is no longer found, and [Decode] fails on
    the file, its extents never set. *)
Theorem C8_skip_reads_past_payload :
  readChunk 2 (mkState (noteChunk ++ sizeChunk) newVoxFile)
  = (Done 13, mkState (skipn 3 sizeChunk) newVoxFile)
  /\ readChunk 2 (mkState sizeChunk newVoxFile)
     = (Done 24, mkState [] (setSize newVoxFile 20 21 20))
  /\ Decode noteFile
     = Some (Some (mkVoxFile 150 0 0 0 []
                     (instancePalette defaultPalette)),
             Some (ErrChildrenSize
                     (string_of_list_byte [x00; x15; x00; x00])
                     ErrUnexpectedEOF)).
Proof. repeat split. Qed.

(** ** Byte accounting *)

(** What a chunk read with success reports: the 12 header bytes and the
    declared payload size (line 254). *)
Lemma readChunk_Done_value (fuel : nat) (a b c d s0 s1 s2 s3 : byte)
    (r : Reader) (f : VoxFile) (v : uint32) (s' : State) :
  readChunk fuel (mkState (a :: b :: c :: d :: s0 :: s1 :: s2 :: s3 :: r) f)
  = (Done v, s') ->
  v = wrap32 (Binary.Uint32 [s0; s1; s2; s3] + 12).
Proof.
  destruct fuel as [| fuel]; [discriminate |].
  cbn [readChunk]. rewrite bind_Read4, bind_ReadUint32.
  unfold bind.
  repeat match goal with
         | |- context [match ?m ?s with _ => _ end] =>
             destruct (m s) as [[? | ? |] ?]; try discriminate
         end.
  intros H; inversion H; reflexivity.
Qed.

(** C3 at the nested tree: the NODE chunk takes 24 bytes off the stream,
    its header and its child, and reports 12, its header alone; the root,
    which declared 24 bytes of children, is left with 12 to read, asks for
    another chunk at the end of the input and fails, and so does
    [Decode]. *)
Theorem C3_children_not_counted :
  length nodeChunk = 24%nat
  /\ readChunk 2 (mkState nodeChunk newVoxFile)
     = (Done 12, mkState [] newVoxFile)
  /\ readChunk 3 (mkState nestedTree newVoxFile)
     = (Fail (ErrChunkID EOF), mkState [] newVoxFile)
  /\ Decode (header ++ nestedTree)
     = Some (Some (mkVoxFile 150 0 0 0 []
                     (instancePalette defaultPalette)),
             Some (ErrChunkID EOF)).
Proof. repeat split. Qed.

(** ** The palette of the result *)

Lemma instancePalette_default_length :
  length (instancePalette defaultPalette) = 256%nat.
Proof. reflexivity. Qed.

(** Whatever the chunk reader did, the record [Decode] returns carries the
    default palette: line 110 assigns it after [readChunk], without a
    test. *)
Lemma Decode_Palette (input : Reader) (voxelFile : VoxFile)
    (err : option error) :
  Decode input = Some (Some voxelFile, err) ->
  Palette voxelFile = instancePalette defaultPalette.
Proof.
  unfold Decode.
  destruct (decodeHeader input) as [e | [version r]]; [discriminate |].
  destruct (readChunk _ _) as [[v | e |] s]; intros H; inversion H;
    reflexivity.
Qed.

Lemma Decode_past_header (input r : Reader) (version : uint32) :
  decodeHeader input = inr (version, r) ->
  exists voxelFile err, Decode input = Some (Some voxelFile, err).
Proof.
  intros Hheader. pose proof (Decode_total input) as Htotal.
  unfold Decode in *. rewrite Hheader in *.
  destruct (readChunk _ _) as [[v | e |] s]; [eauto | eauto | contradiction].
Qed.

(** C10. On an input that passes the header check [Decode] returns a
    record, with or without an error of the chunk reader beside it, and the
    palette of any record [Decode] returns is the instance of the built-in
    default table, 256 entries long, whatever the input holds. *)
Theorem C10_returned_palette_is_default (input : Reader) :
  (forall version r,
     decodeHeader input = inr (version, r) ->
     exists voxelFile err, Decode input = Some (Some voxelFile, err))
  /\ (forall voxelFile err,
        Decode input = Some (Some voxelFile, err) ->
        Palette voxelFile = instancePalette defaultPalette
        /\ length (Palette voxelFile) = 256%nat).
Proof.
  split.
  - intros version r. apply Decode_past_header.
  - intros voxelFile err H. apply Decode_Palette in H. rewrite H.
    split; [reflexivity | apply instancePalette_default_length].
Qed.

Lemma C10_returned_palette_is_default_witness :
  (exists voxelFile err,
     Decode customPaletteFile = Some (Some voxelFile, err))
  /\ (exists voxelFile err,
        Decode truncatedFile = Some (Some voxelFile, Some err)
        /\ Palette voxelFile = instancePalette defaultPalette
        /\ length (Palette voxelFile) = 256%nat).
Proof.
  split.
  - apply (proj1 (C10_returned_palette_is_default customPaletteFile)
             150 (skipn 8 customPaletteFile)).
    reflexivity.
  - exists (mkVoxFile 150 20 21 20 [] (instancePalette defaultPalette)),
           (ErrVoxel "XYZI" 0 EOF).
    split; [reflexivity |].
    apply (proj2 (C10_returned_palette_is_default truncatedFile)
             _ (Some (ErrVoxel "XYZI" 0 EOF))).
    reflexivity.
Defined.

(** The first three entries of the palette of a successful [Decode]: the
    bytes of the packed values 0x00000000, 0xffffffff and 0xffccffff, from
    the low byte upwards, as R, G, B, A. *)
Lemma Decode_palette_entries (input : Reader) (voxelFile : VoxFile) :
  Decode input = Some (Some voxelFile, None) ->
  Palette voxelFile = instancePalette defaultPalette
  /\ firstn 3 defaultPalette = [0x00000000; 0xffffffff; 0xffccffff]
  /\ nth_error (Palette voxelFile) 0 = Some (mkColor 0 0 0 0)
  /\ nth_error (Palette voxelFile) 1 = Some (mkColor 255 255 255 255)
  /\ nth_error (Palette voxelFile) 2 = Some (mkColor 255 255 204 255).
Proof.
  intros H. apply Decode_Palette in H. rewrite H. repeat split.
Qed.

(** C4 at a file without RGBA chunk, the header and an empty root chunk:
    [Decode] succeeds, and entry 2 of the palette it returns is (255, 255,
    204, 255), where the claim, and [TestFileLoad] of the package, expect
    (255, 204, 255, 255).  [instancePalette] takes R, G, B, A from the low
    byte of the packed value upwards (lines 265-268), and 0xffccffff has
    the bytes ff, ff, cc, ff from the low end. *)
Theorem C4_entry_2_is_255_255_204_255 :
  exists voxelFile,
    Decode (header ++ chunkHeader "MAIN" zero4 zero4)
    = Some (Some voxelFile, None)
    /\ nth_error (Palette voxelFile) 2 = Some (mkColor 255 255 204 255)
    /\ nth_error (Palette voxelFile) 2 <> Some (mkColor 255 204 255 255).
Proof.
  eexists. split; [reflexivity |]. split; [reflexivity | discriminate].
Qed.

(** C1 at a file with a custom palette: the RGBA chunk is read into the
    record, 256 entries (1, 2, 3, 4), and [Decode] then replaces them by
    the default palette. *)
Theorem C1_custom_palette_is_overwritten :
  fst (readChunk 1 (mkState (skipn 8 customPaletteFile)
                      (setVersion newVoxFile 150)))
  = Done 1036
  /\ Palette (vox (snd (readChunk 1 (mkState (skipn 8 customPaletteFile)
                                       (setVersion newVoxFile 150)))))
     = repeat (mkColor 1 2 3 4) 256
  /\ Decode customPaletteFile
     = Some (Some (mkVoxFile 150 0 0 0 []
                     (instancePalette defaultPalette)), None)
  /\ instancePalette defaultPalette <> repeat (mkColor 1 2 3 4) 256.
Proof.
  repeat split. vm_compute. discriminate.
Qed.

(** ** The record and the error *)

(** The record is withheld exactly on a header failure. *)
Lemma Decode_nil_record (input : Reader) (err : option error) :
  Decode input = Some (None, err) <->
  exists e, decodeHeader input = inl e /\ err = Some e.
Proof.
  unfold Decode. split.
  - destruct (decodeHeader input) as [e | [version r]].
    + intros H; inversion H; subst. now exists e.
    + destruct (readChunk _ _) as [[v | e |] s]; discriminate.
  - intros (e & -> & ->). reflexivity.
Qed.

(** C2 at a truncated file: the chunk reader fails in the XYZI chunk, and
    [Decode] returns the error together with the record, which holds the
    version and the extents read before the failure. *)
Theorem C2_record_returned_with_error :
  Decode truncatedFile
  = Some (Some (mkVoxFile 150 20 21 20 [] (instancePalette defaultPalette)),
          Some (ErrVoxel "XYZI" 0 EOF)).
Proof. reflexivity. Qed.

(** * Further properties of the decoder *)

(** ** The handlers of the three known chunks *)

Lemma readChunk_SIZE (fuel : nat)
    (k0 k1 k2 k3 x0 x1 x2 x3 y0 y1 y2 y3 z0 z1 z2 z3 : byte) (r : Reader)
    (f : VoxFile) :
  readChunk (S fuel)
    (mkState (chunkHeader "SIZE" [x0c; x00; x00; x00] [k0; k1; k2; k3]
              ++ [x0; x1; x2; x3] ++ [y0; y1; y2; y3] ++ [z0; z1; z2; z3]
              ++ r) f)
  = (readChildren fuel (readChunk fuel) (Binary.Uint32 [k0; k1; k2; k3]) ;;;
     ret 24)
      (mkState r (setSize f (Binary.Uint32 [x0; x1; x2; x3])
                            (Binary.Uint32 [y0; y1; y2; y3])
                            (Binary.Uint32 [z0; z1; z2; z3]))).
Proof.
  unfold chunkHeader.
  change (list_byte_of_string "SIZE") with ["S"; "I"; "Z"; "E"]%byte.
  read_header.
  change (Binary.Uint32 [x0c; x00; x00; x00]) with 12.
  change (string_of_list_byte (array4 ["S"; "I"; "Z"; "E"]%byte))
    with "SIZE"%string.
  cbn [String.eqb Ascii.eqb Bool.eqb Z.ltb Z.eqb Z.compare Pos.compare
       Pos.compare_cont Pos.eqb negb].
  rewrite !bind_assoc, bind_ReadUint32.
  rewrite !bind_assoc, bind_ReadUint32.
  rewrite !bind_assoc, bind_ReadUint32.
  rewrite bind_update. reflexivity.
Qed.

(** X1. A SIZE chunk of declared payload size 12 stores the three
    little-endian words of its payload as the extents X, Y, Z, in this
    order and over the extents the record held, keeps the version, the
    voxels and the palette, and goes on to its children from the byte after
    the payload; without children it is read with success and reports
    24. *)
Theorem X1_SIZE_chunk_sets_extents (fuel : nat)
    (k0 k1 k2 k3 x0 x1 x2 x3 y0 y1 y2 y3 z0 z1 z2 z3 : byte) (r : Reader)
    (f : VoxFile) :
  let payload := [x0; x1; x2; x3] ++ [y0; y1; y2; y3] ++ [z0; z1; z2; z3] in
  let f' := mkVoxFile (Version f) (Binary.Uint32 [x0; x1; x2; x3])
              (Binary.Uint32 [y0; y1; y2; y3])
              (Binary.Uint32 [z0; z1; z2; z3]) (Voxels f) (Palette f) in
  readChunk (S fuel)
    (mkState (chunkHeader "SIZE" [x0c; x00; x00; x00] [k0; k1; k2; k3]
              ++ payload ++ r) f)
  = (readChildren fuel (readChunk fuel) (Binary.Uint32 [k0; k1; k2; k3]) ;;;
     ret 24) (mkState r f')
  /\ readChunk (S fuel)
       (mkState (chunkHeader "SIZE" [x0c; x00; x00; x00] zero4
                 ++ payload ++ r) f)
     = (Done 24, mkState r f').
Proof.
  intros payload f'. subst payload. rewrite <- !app_assoc. split.
  - apply readChunk_SIZE.
  - unfold zero4. rewrite readChunk_SIZE, Uint32_zero.
    destruct fuel; reflexivity.
Qed.

Lemma readChunk_SIZE_short (fuel : nat) (k0 k1 k2 k3 : byte)
    (tail : Reader) (f : VoxFile) :
  (length tail < 12)%nat ->
  readChunk (S fuel)
    (mkState (chunkHeader "SIZE" [x0c; x00; x00; x00] [k0; k1; k2; k3]
              ++ tail) f)
  = (Fail (ErrAxisSize "SIZE" (axisOf (length tail / 4))
             (if (length tail mod 4 =? 0)%nat then EOF
              else ErrUnexpectedEOF)),
     mkState [] f).
Proof.
  intros Hlen. unfold chunkHeader.
  change (list_byte_of_string "SIZE") with ["S"; "I"; "Z"; "E"]%byte.
  read_header.
  change (Binary.Uint32 [x0c; x00; x00; x00]) with 12.
  change (string_of_list_byte (array4 ["S"; "I"; "Z"; "E"]%byte))
    with "SIZE"%string.
  cbn [String.eqb Ascii.eqb Bool.eqb Z.ltb Z.eqb Z.compare Pos.compare
       Pos.compare_cont Pos.eqb negb].
  do 12 (destruct tail as [| ? tail]; [reflexivity |]).
  cbn [length] in Hlen. lia.
Qed.

(** X2. A SIZE chunk whose 12-byte payload is cut by the end of the input
    fails with the error of the first axis that could not be read in full
    (plain EOF when the input ends between two words), and the extents of
    the record stay as they were: they are assigned only once all three
    have been read. *)
Theorem X2_SIZE_chunk_truncated (fuel : nat) (k0 k1 k2 k3 : byte)
    (tail : Reader) (f : VoxFile) :
  (length tail < 12)%nat ->
  readChunk (S fuel)
    (mkState (chunkHeader "SIZE" [x0c; x00; x00; x00] [k0; k1; k2; k3]
              ++ tail) f)
  = (Fail (ErrAxisSize "SIZE" (axisOf (length tail / 4))
             (if (length tail mod 4 =? 0)%nat then EOF
              else ErrUnexpectedEOF)),
     mkState [] f).
Proof. apply readChunk_SIZE_short. Qed.

Lemma X2_SIZE_chunk_truncated_witness :
  readChunk 1
    (mkState (chunkHeader "SIZE" [x0c; x00; x00; x00] zero4
              ++ [x14; x00; x00; x00; x15; x00])
       (setSize newVoxFile 1 2 3))
  = (Fail (ErrAxisSize "SIZE" AxisY ErrUnexpectedEOF),
     mkState [] (setSize newVoxFile 1 2 3)).
Proof.
  apply (X2_SIZE_chunk_truncated 0 x00 x00 x00 x00
           [x14; x00; x00; x00; x15; x00]).
  cbn. lia.
Defined.

(** The voxel loop on a stream that ends before the [n]-th record is
    complete: it fails at the first record it cannot read in full, with
    [EOF] since every field is read on its own. *)
Lemma readVoxels_short (chunkIDStr : string) (n : nat) :
  forall i tail f,
    (length tail < 4 * n)%nat ->
    readVoxels chunkIDStr n i (mkState tail f)
    = (Fail (ErrVoxel chunkIDStr (i + Z.of_nat (length tail / 4)) EOF),
       mkState [] f).
Proof.
  induction n as [| n IH]; intros i tail f Hlen; [lia |].
  cbn [readVoxels].
  destruct tail as [| x [| y [| z [| c tail]]]];
    try (cbn [length Nat.div Nat.divmod fst Z.of_nat];
         rewrite ?bind_ReadUint8, Z.add_0_r; reflexivity).
  rewrite !bind_ReadUint8. cbn [length] in Hlen.
  rewrite (bind_Fail _ _ _ _ _ (IH (i + 1) tail f ltac:(lia))).
  replace (length (x :: y :: z :: c :: tail)) with (1 * 4 + length tail)%nat
    by reflexivity.
  rewrite Nat.div_add_l by lia.
  do 3 f_equal. lia.
Qed.

Lemma colorsOf_length (n : nat) :
  forall bs, (4 * n <= length bs)%nat -> length (colorsOf n bs) = n.
Proof.
  induction n as [| n IH]; intros bs Hlen; [reflexivity |].
  destruct bs as [| r [| g [| b [| a bs]]]]; cbn [length] in Hlen; try lia.
  cbn [colorsOf length]. f_equal. apply IH. lia.
Qed.

Lemma colorsOf_nth_error (n : nat) :
  forall bs k,
    (4 * n <= length bs)%nat -> (k < n)%nat ->
    nth_error (colorsOf n bs) k
    = Some (mkColor (u8 (nth (4 * k) bs x00)) (u8 (nth (4 * k + 1) bs x00))
                    (u8 (nth (4 * k + 2) bs x00))
                    (u8 (nth (4 * k + 3) bs x00))).
Proof.
  induction n as [| n IH]; intros bs k Hlen Hk; [lia |].
  destruct bs as [| r [| g [| b [| a bs]]]]; cbn [length] in Hlen; try lia.
  cbn [colorsOf]. destruct k as [| k].
  - reflexivity.
  - cbn [nth_error]. rewrite IH by lia.
    replace (4 * S k)%nat with (S (S (S (S (4 * k))))) by lia.
    reflexivity.
Qed.

Lemma readColors_enough (chunkIDStr : string) (n : nat) :
  forall i tail f,
    (4 * n <= length tail)%nat ->
    readColors chunkIDStr n i (mkState tail f)
    = (Done (colorsOf n tail), mkState (skipn (4 * n) tail) f).
Proof.
  induction n as [| n IH]; intros i tail f Hlen; [reflexivity |].
  destruct tail as [| r [| g [| b [| a tail]]]]; cbn [length] in Hlen;
    try lia.
  cbn [readColors]. rewrite !bind_ReadUint8.
  rewrite (bind_Done _ _ _ _ _ (IH (i + 1) tail f ltac:(lia))).
  replace (4 * S n)%nat with (S (S (S (S (4 * n))))) by lia.
  reflexivity.
Qed.

Lemma readColors_short (chunkIDStr : string) (n : nat) :
  forall i tail f,
    (length tail < 4 * n)%nat ->
    readColors chunkIDStr n i (mkState tail f)
    = (Fail (ErrColor chunkIDStr (i + Z.of_nat (length tail / 4)) EOF),
       mkState [] f).
Proof.
  induction n as [| n IH]; intros i tail f Hlen; [lia |].
  cbn [readColors].
  destruct tail as [| r [| g [| b [| a tail]]]];
    try (cbn [length Nat.div Nat.divmod fst Z.of_nat];
         rewrite ?bind_ReadUint8, Z.add_0_r; reflexivity).
  rewrite !bind_ReadUint8. cbn [length] in Hlen.
  rewrite (bind_Fail _ _ _ _ _ (IH (i + 1) tail f ltac:(lia))).
  replace (length (r :: g :: b :: a :: tail)) with (1 * 4 + length tail)%nat
    by reflexivity.
  rewrite Nat.div_add_l by lia.
  do 3 f_equal. lia.
Qed.

(** An RGBA chunk with a payload: the color loop, the assignment of its
    result, then the children loop. *)
Lemma readChunk_RGBA (fuel : nat) (s0 s1 s2 s3 k0 k1 k2 k3 : byte)
    (tail : Reader) (f : VoxFile) :
  Binary.Uint32 [s0; s1; s2; s3] <> 0 ->
  readChunk (S fuel)
    (mkState (chunkHeader "RGBA" [s0; s1; s2; s3] [k0; k1; k2; k3]
              ++ tail) f)
  = (customPalette <- readColors "RGBA" 256 0 ;;
     update (fun f => setPalette f customPalette) ;;;
     readChildren fuel (readChunk fuel) (Binary.Uint32 [k0; k1; k2; k3]) ;;;
     ret (wrap32 (Binary.Uint32 [s0; s1; s2; s3] + 12)))
    (mkState tail f).
Proof.
  intros Hnz. unfold chunkHeader.
  change (list_byte_of_string "RGBA") with ["R"; "G"; "B"; "A"]%byte.
  read_header.
  pose proof (Uint32_range [s0; s1; s2; s3]) as Hrange.
  replace (0 <? Binary.Uint32 [s0; s1; s2; s3]) with true
    by (symmetry; apply Z.ltb_lt; lia).
  change (string_of_list_byte (array4 ["R"; "G"; "B"; "A"]%byte))
    with "RGBA"%string.
  cbn [String.eqb Ascii.eqb Bool.eqb].
  rewrite bind_assoc. reflexivity.
Qed.

(** X3. An RGBA chunk of any declared payload size but 0 reads 256 color
    records, 1024 bytes, whatever that size says: with these bytes at hand
    the record's palette becomes the 256 colors of the payload in file
    order, the k-th from bytes 4k .. 4k+3 as R, G, B and A, the other
    fields stay, and the children loop goes on after byte 1024; without
    children the chunk is read with success and reports the declared size
    plus 12. *)
Theorem X3_RGBA_chunk_reads_256_colors (fuel : nat)
    (s0 s1 s2 s3 k0 k1 k2 k3 : byte) (tail : Reader) (f : VoxFile) :
  let chunkSize := Binary.Uint32 [s0; s1; s2; s3] in
  let decoded :=
    mkState (skipn 1024 tail)
      (mkVoxFile (Version f) (SizeX f) (SizeY f) (SizeZ f) (Voxels f)
         (colorsOf 256 tail)) in
  chunkSize <> 0 -> (1024 <= length tail)%nat ->
  readChunk (S fuel)
    (mkState (chunkHeader "RGBA" [s0; s1; s2; s3] [k0; k1; k2; k3]
              ++ tail) f)
  = (readChildren fuel (readChunk fuel) (Binary.Uint32 [k0; k1; k2; k3]) ;;;
     ret (wrap32 (chunkSize + 12))) decoded
  /\ readChunk (S fuel)
       (mkState (chunkHeader "RGBA" [s0; s1; s2; s3] zero4 ++ tail) f)
     = (Done (wrap32 (chunkSize + 12)), decoded)
  /\ length (Palette (vox decoded)) = 256%nat
  /\ forall k, (k < 256)%nat ->
       nth_error (Palette (vox decoded)) k
       = Some (mkColor (u8 (nth (4 * k) tail x00))
                       (u8 (nth (4 * k + 1) tail x00))
                       (u8 (nth (4 * k + 2) tail x00))
                       (u8 (nth (4 * k + 3) tail x00))).
Proof.
  intros chunkSize decoded Hnz Hlen.
  assert (Hchunk : forall c0 c1 c2 c3,
            readChunk (S fuel)
              (mkState (chunkHeader "RGBA" [s0; s1; s2; s3] [c0; c1; c2; c3]
                        ++ tail) f)
            = (readChildren fuel (readChunk fuel)
                 (Binary.Uint32 [c0; c1; c2; c3]) ;;;
               ret (wrap32 (chunkSize + 12))) decoded).
  { intros c0 c1 c2 c3. rewrite readChunk_RGBA by exact Hnz.
    rewrite (bind_Done _ _ _ _ _
               (readColors_enough "RGBA" 256 0 tail f Hlen)).
    now rewrite bind_update. }
  split; [apply Hchunk |]. split; [| split].
  - unfold zero4. rewrite Hchunk, Uint32_zero. destruct fuel; reflexivity.
  - subst decoded. cbn [vox Palette]. now apply colorsOf_length.
  - intros k Hk. subst decoded. cbn [vox Palette].
    now apply colorsOf_nth_error.
Qed.

Lemma X3_RGBA_chunk_reads_256_colors_witness :
  readChunk 1
    (mkState (chunkHeader "RGBA" [x04; x00; x00; x00] zero4
              ++ concat (repeat [x01; x02; x03; x04] 256) ++ [xff])
       newVoxFile)
  = (Done 16,
     mkState [xff]
       (mkVoxFile 0 0 0 0 []
          (colorsOf 256 (concat (repeat [x01; x02; x03; x04] 256)
                         ++ [xff])))).
Proof.
  refine (proj1 (proj2 (X3_RGBA_chunk_reads_256_colors
                          0 x04 x00 x00 x00 x00 x00 x00 x00
                          (concat (repeat [x01; x02; x03; x04] 256)
                           ++ [xff]) newVoxFile _ _))).
  - vm_compute. discriminate.
  - vm_compute. lia.
Defined.

(** X4. An RGBA chunk whose input ends before byte 1024 of the palette
    fails with the color error that carries the index of the first color
    not read in full, and the palette of the record stays as it was. *)
Theorem X4_RGBA_chunk_truncated (fuel : nat)
    (s0 s1 s2 s3 k0 k1 k2 k3 : byte) (tail : Reader) (f : VoxFile) :
  Binary.Uint32 [s0; s1; s2; s3] <> 0 -> (length tail < 1024)%nat ->
  readChunk (S fuel)
    (mkState (chunkHeader "RGBA" [s0; s1; s2; s3] [k0; k1; k2; k3]
              ++ tail) f)
  = (Fail (ErrColor "RGBA" (Z.of_nat (length tail / 4)) EOF), mkState [] f).
Proof.
  intros Hnz Hlen. rewrite readChunk_RGBA by exact Hnz.
  now rewrite (bind_Fail _ _ _ _ _
                 (readColors_short "RGBA" 256 0 tail f Hlen)).
Qed.

Lemma X4_RGBA_chunk_truncated_witness :
  readChunk 1
    (mkState (chunkHeader "RGBA" [x00; x04; x00; x00] zero4
              ++ [x01; x02; x03; x04; x05; x06]) newVoxFile)
  = (Fail (ErrColor "RGBA" 1 EOF), mkState [] newVoxFile).
Proof.
  apply (X4_RGBA_chunk_truncated 0 x00 x04 x00 x00 x00 x00 x00 x00
           [x01; x02; x03; x04; x05; x06] newVoxFile).
  - vm_compute. discriminate.
  - cbn. lia.
Defined.

(** X5. An XYZI chunk whose input ends before the last of the N declared
    voxel records fails with the voxel error that carries the index of the
    first record not read in full, and the voxel sequence of the record
    stays as it was: it is assigned only after the loop. *)
Theorem X5_XYZI_chunk_truncated (fuel : nat)
    (s0 s1 s2 s3 k0 k1 k2 k3 n0 n1 n2 n3 : byte) (tail : Reader)
    (f : VoxFile) :
  let N := Z.to_nat (Binary.Uint32 [n0; n1; n2; n3]) in
  Binary.Uint32 [s0; s1; s2; s3] <> 0 -> (length tail < 4 * N)%nat ->
  readChunk (S fuel)
    (mkState (chunkHeader "XYZI" [s0; s1; s2; s3] [k0; k1; k2; k3]
              ++ [n0; n1; n2; n3] ++ tail) f)
  = (Fail (ErrVoxel "XYZI" (Z.of_nat (length tail / 4)) EOF), mkState [] f).
Proof.
  intros N Hnz Hlen. rewrite readChunk_XYZI by exact Hnz.
  now rewrite (bind_Fail _ _ _ _ _
                 (readVoxels_short "XYZI" N 0 tail f Hlen)).
Qed.

Lemma X5_XYZI_chunk_truncated_witness :
  readChunk 1
    (mkState (chunkHeader "XYZI" [x0c; x00; x00; x00] zero4
              ++ [x02; x00; x00; x00] ++ [x01; x02; x03; x04; x05])
       (setVoxels newVoxFile [mkVoxel 9 9 9 9]))
  = (Fail (ErrVoxel "XYZI" 1 EOF),
     mkState [] (setVoxels newVoxFile [mkVoxel 9 9 9 9])).
Proof.
  apply (X5_XYZI_chunk_truncated 0 x0c x00 x00 x00 x00 x00 x00 x00
           x02 x00 x00 x00 [x01; x02; x03; x04; x05]).
  - vm_compute. discriminate.
  - vm_compute. lia.
Defined.

(** ** Short inputs *)

Lemma readChunk_header_short (fuel : nat) (r : Reader) (f : VoxFile) :
  (length r < 12)%nat ->
  readChunk (S fuel) (mkState r f) = (Fail (headerError r), mkState [] f).
Proof.
  intros Hlen.
  do 12 (destruct r as [| ? r]; [reflexivity |]).
  cbn [length] in Hlen. lia.
Qed.

Lemma readChunk_Done_header (fuel : nat) (s s' : State) (v : uint32) :
  readChunk fuel s = (Done v, s') ->
  exists a b c d s0 s1 s2 s3 k0 k1 k2 k3 rest,
    rd s = [a; b; c; d] ++ [s0; s1; s2; s3] ++ [k0; k1; k2; k3] ++ rest
    /\ v = wrap32 (Binary.Uint32 [s0; s1; s2; s3] + 12).
Proof.
  destruct fuel as [| fuel]; [discriminate |].
  destruct s as [r f]. intros H.
  destruct (Nat.lt_ge_cases (length r) 12) as [Hlt | Hge].
  - rewrite readChunk_header_short in H by exact Hlt. discriminate.
  - do 12 (destruct r as [| ? r]; [cbn [length] in Hge; lia |]).
    repeat eexists. exact (readChunk_Done_value _ _ _ _ _ _ _ _ _ _ _ _ _ H).
Qed.

(** X6. On a stream that ends within the 12 bytes of a chunk header the
    chunk reader fails and leaves the record as it was: with the chunk-ID
    error on an empty stream, with the chunk-size error when the size word
    is missing (EOF) or cut, and with the children-size error when that
    word is missing or cut; the identifier in the message is the bytes
    read, padded with zero bytes. *)
Theorem X6_chunk_header_truncated (fuel : nat) (r : Reader) (f : VoxFile) :
  (length r < 12)%nat ->
  readChunk (S fuel) (mkState r f) = (Fail (headerError r), mkState [] f).
Proof. apply readChunk_header_short. Qed.

Lemma X6_chunk_header_truncated_witness :
  readChunk 1 (mkState [] newVoxFile)
  = (Fail (ErrChunkID EOF), mkState [] newVoxFile)
  /\ readChunk 1 (mkState (list_byte_of_string "SI") newVoxFile)
     = (Fail (ErrChunkSize (string_of_list_byte ["S"; "I"; x00; x00]%byte)
                EOF),
        mkState [] newVoxFile)
  /\ readChunk 1
       (mkState (list_byte_of_string "SIZE" ++ [x0c; x00; x00; x00; x00])
          newVoxFile)
     = (Fail (ErrChildrenSize "SIZE" ErrUnexpectedEOF),
        mkState [] newVoxFile).
Proof.
  split; [| split].
  - apply (X6_chunk_header_truncated 0 []). cbn. lia.
  - apply (X6_chunk_header_truncated 0 (list_byte_of_string "SI")).
    cbn. lia.
  - apply (X6_chunk_header_truncated 0
             (list_byte_of_string "SIZE" ++ [x0c; x00; x00; x00; x00])).
    cbn. lia.
Defined.

(** X7. A chunk that is read with success had its 12 header bytes on the
    stream, and what the reader reports for it is the declared payload
    size plus 12, modulo 2^32, whatever its payload handler and its
    children took off the stream. *)
Theorem X7_reported_size (fuel : nat) (s s' : State) (v : uint32) :
  readChunk fuel s = (Done v, s') ->
  exists a b c d s0 s1 s2 s3 k0 k1 k2 k3 rest,
    rd s = [a; b; c; d] ++ [s0; s1; s2; s3] ++ [k0; k1; k2; k3] ++ rest
    /\ v = wrap32 (Binary.Uint32 [s0; s1; s2; s3] + 12).
Proof. apply readChunk_Done_header. Qed.

Lemma X7_reported_size_witness :
  exists a b c d s0 s1 s2 s3 k0 k1 k2 k3 rest,
    rd (mkState nodeChunk newVoxFile)
    = [a; b; c; d] ++ [s0; s1; s2; s3] ++ [k0; k1; k2; k3] ++ rest
    /\ 12 = wrap32 (Binary.Uint32 [s0; s1; s2; s3] + 12).
Proof.
  apply (X7_reported_size 2 (mkState nodeChunk newVoxFile)
           (mkState [] newVoxFile) 12).
  reflexivity.
Defined.

(** X8. [Decode] returns an error on every input shorter than 20 bytes,
    the 8 bytes of the file header and the 12 bytes of a chunk header; a
    file of 20 bytes, the header and a root chunk of any identifier that
    declares no payload and no children, decodes without error to a record
    with version 150, extents 0 and no voxels. *)
Theorem X8_shortest_file (input : Reader) :
  ((length input < 20)%nat ->
   exists voxelFile err, Decode input = Some (voxelFile, Some err))
  /\ (forall a b c d,
        Decode (header ++ [a; b; c; d] ++ zero4 ++ zero4)
        = Some (Some (mkVoxFile 150 0 0 0 []
                        (instancePalette defaultPalette)), None)).
Proof.
  split.
  - intros Hlen. destruct (decodeHeader input) as [e | [version r]] eqn:E.
    + exists None, e. unfold Decode. now rewrite E.
    + destruct (decodeHeader_inr _ _ _ E) as [-> ->].
      rewrite Decode_header.
      rewrite length_app in Hlen. change (length header) with 8%nat in Hlen.
      rewrite readChunk_header_short by lia. eauto.
  - intros a b c d. reflexivity.
Qed.

Lemma X8_shortest_file_witness :
  exists voxelFile err,
    Decode (header ++ list_byte_of_string "MAIN" ++ zero4)
    = Some (voxelFile, Some err).
Proof.
  apply (proj1 (X8_shortest_file
                  (header ++ list_byte_of_string "MAIN" ++ zero4))).
  cbn. lia.
Defined.

(** ** What the chunk reader keeps *)

Lemma suffix_refl (r : Reader) : suffix r r.
Proof. now exists []. Qed.

Lemma suffix_trans (r1 r2 r3 : Reader) :
  suffix r3 r2 -> suffix r2 r1 -> suffix r3 r1.
Proof.
  intros [p ->] [q ->]. exists (q ++ p). now rewrite app_assoc.
Qed.

Lemma suffix_nil (r : Reader) : suffix [] r.
Proof. exists r. now rewrite app_nil_r. Qed.

Lemma suffix_skipn (n : nat) (r : Reader) : suffix (skipn n r) r.
Proof. exists (firstn n r). now rewrite firstn_skipn. Qed.

Lemma Read_suffix (n : nat) (r r' : Reader) (x : ioError + list byte) :
  Bufio.Read n r = (x, r') -> suffix r' r.
Proof.
  destruct r as [| b r]; cbn [Bufio.Read]; intros H; inversion H; subst.
  - apply suffix_refl.
  - apply suffix_skipn.
Qed.

Lemma ReadFull_suffix (n : nat) (r r' : Reader) (x : ioError + list byte) :
  Binary.ReadFull n r = (x, r') -> suffix r' r.
Proof.
  unfold Binary.ReadFull. destruct n as [| n].
  - intros H; inversion H; subst. apply suffix_refl.
  - destruct r as [| b r].
    + intros H; inversion H; subst. apply suffix_refl.
    + destruct (length (b :: r) <? S n)%nat; intros H; inversion H; subst.
      * apply suffix_nil.
      * exact (suffix_skipn (S n) (b :: r)).
Qed.

Lemma ReadUint32_suffix (r r' : Reader) (x : ioError + uint32) :
  Binary.ReadUint32 r = (x, r') -> suffix r' r.
Proof.
  unfold Binary.ReadUint32.
  destruct (Binary.ReadFull 4 r) as [[err | bs] r1] eqn:E;
    intros H; inversion H; subst; exact (ReadFull_suffix _ _ _ _ E).
Qed.

Lemma ReadUint8_suffix (r r' : Reader) (x : ioError + uint8) :
  Binary.ReadUint8 r = (x, r') -> suffix r' r.
Proof.
  unfold Binary.ReadUint8.
  destruct (Binary.ReadFull 1 r) as [[err | bs] r1] eqn:E;
    intros H; inversion H; subst; exact (ReadFull_suffix _ _ _ _ E).
Qed.

(** A relation between the state before and the state after that every
    step of the chunk reader respects: reads, which only take bytes off the
    front of the stream, and the three assignments to the record, none of
    which touches the version. *)
Section Preserved.

Variable Rel : State -> State -> Prop.
Hypothesis Rel_refl : forall s, Rel s s.
Hypothesis Rel_trans : forall s1 s2 s3, Rel s1 s2 -> Rel s2 s3 -> Rel s1 s3.
Hypothesis Rel_read :
  forall r r' f, suffix r' r -> Rel (mkState r f) (mkState r' f).
Hypothesis Rel_update :
  forall r f f', Version f' = Version f -> Rel (mkState r f) (mkState r f').

Lemma preserves_ret {T} (v : T) : preserves Rel (ret v).
Proof. intros s o s' H. inversion H; subst. apply Rel_refl. Qed.

Lemma preserves_fail {T} (e : error) : preserves Rel (@fail T e).
Proof. intros s o s' H. inversion H; subst. apply Rel_refl. Qed.

Lemma preserves_outOfFuel {T} : preserves Rel (@outOfFuel T).
Proof. intros s o s' H. inversion H; subst. apply Rel_refl. Qed.

Lemma preserves_bind {T U} (m : M T) (k : T -> M U) :
  preserves Rel m -> (forall v, preserves Rel (k v)) -> preserves Rel (bind m k).
Proof.
  intros Hm Hk s o s' H. unfold bind in H.
  destruct (m s) as [[v | e |] s1] eqn:E.
  - exact (Rel_trans _ _ _ (Hm _ _ _ E) (Hk v _ _ _ H)).
  - inversion H; subst. exact (Hm _ _ _ E).
  - inversion H; subst. exact (Hm _ _ _ E).
Qed.

Lemma preserves_try {T} (read : Reader -> (ioError + T) * Reader)
    (wrapErr : ioError -> error) :
  (forall r x r', read r = (x, r') -> suffix r' r) ->
  preserves Rel (try read wrapErr).
Proof.
  intros Hread [r f] o s' H. unfold try in H. cbn [rd vox] in H.
  destruct (read r) as [[err | v] r'] eqn:E; inversion H; subst;
    apply Rel_read, (Hread _ _ _ E).
Qed.

Lemma preserves_update (g : VoxFile -> VoxFile) :
  (forall f, Version (g f) = Version f) -> preserves Rel (update g).
Proof.
  intros Hg [r f] o s' H. inversion H; subst. cbn [rd vox].
  apply Rel_update, Hg.
Qed.

Lemma preserves_readVoxels (chunkIDStr : string) (n : nat) :
  forall i, preserves Rel (readVoxels chunkIDStr n i).
Proof.
  induction n as [| n IH]; intros i; cbn [readVoxels].
  - apply preserves_ret.
  - repeat (apply preserves_bind;
            [apply preserves_try; intros r x r'; apply ReadUint8_suffix
            | intros ?]).
    apply preserves_bind; [apply IH | intros ?; apply preserves_ret].
Qed.

Lemma preserves_readColors (chunkIDStr : string) (n : nat) :
  forall i, preserves Rel (readColors chunkIDStr n i).
Proof.
  induction n as [| n IH]; intros i; cbn [readColors].
  - apply preserves_ret.
  - repeat (apply preserves_bind;
            [apply preserves_try; intros r x r'; apply ReadUint8_suffix
            | intros ?]).
    apply preserves_bind; [apply IH | intros ?; apply preserves_ret].
Qed.

Lemma preserves_skipContents (chunkIDStr : string) (chunkSize : Z)
    (fuel : nat) :
  forall totalRead,
    preserves Rel (skipContents fuel chunkIDStr totalRead chunkSize).
Proof.
  induction fuel as [| fuel IH]; intros totalRead; cbn [skipContents];
    destruct (totalRead <? chunkSize);
    try apply preserves_ret; try apply preserves_outOfFuel.
  apply preserves_bind; [| intros c; apply IH].
  apply preserves_try. intros r x r'. apply Read_suffix.
Qed.

Lemma preserves_readChildren (child : M uint32) (fuel : nat) :
  preserves Rel child ->
  forall remainingBytes, preserves Rel (readChildren fuel child remainingBytes).
Proof.
  intros Hchild.
  induction fuel as [| fuel IH]; intros remainingBytes; cbn [readChildren];
    destruct (0 <? remainingBytes);
    try apply preserves_ret; try apply preserves_outOfFuel.
  apply preserves_bind; [exact Hchild | intros v; apply IH].
Qed.

Lemma preserves_readPayload (fuel : nat) (chunkIDStr : string)
    (chunkSize : uint32) :
  preserves Rel (readPayload fuel chunkIDStr chunkSize).
Proof.
  unfold readPayload.
  destruct (0 <? chunkSize); [| apply preserves_ret].
  destruct (chunkIDStr =? "SIZE")%string.
  { destruct (negb _); [apply preserves_fail |].
    repeat (apply preserves_bind;
            [apply preserves_try; intros r x r'; apply ReadUint32_suffix
            | intros ?]).
    now apply preserves_update. }
  destruct (chunkIDStr =? "XYZI")%string.
  { apply preserves_bind;
      [apply preserves_try; intros r x r'; apply ReadUint32_suffix
      | intros ?].
    apply preserves_bind; [apply preserves_readVoxels | intros ?].
    now apply preserves_update. }
  destruct (chunkIDStr =? "RGBA")%string.
  { apply preserves_bind; [apply preserves_readColors | intros ?].
    now apply preserves_update. }
  apply preserves_skipContents.
Qed.

Lemma preserves_readChunk (fuel : nat) : preserves Rel (readChunk fuel).
Proof.
  induction fuel as [| fuel IH]; cbn [readChunk];
    [apply preserves_outOfFuel |].
  apply preserves_bind;
    [apply preserves_try; intros r x r'; apply Read_suffix | intros ?].
  do 2 (apply preserves_bind;
        [apply preserves_try; intros r x r'; apply ReadUint32_suffix
        | intros ?]).
  apply preserves_bind; [apply preserves_readPayload | intros _].
  apply preserves_bind; [now apply preserves_readChildren | intros _].
  apply preserves_ret.
Qed.

End Preserved.

Lemma readChunk_suffix (fuel : nat) (s s' : State) (o : outcome uint32) :
  readChunk fuel s = (o, s') -> suffix (rd s') (rd s).
Proof.
  apply (preserves_readChunk (fun s s' => suffix (rd s') (rd s))).
  - intros s0. apply suffix_refl.
  - intros s1 s2 s3 H12 H23. exact (suffix_trans _ _ _ H23 H12).
  - intros r r' f H. exact H.
  - intros r f f' _. apply suffix_refl.
Qed.

Lemma readChunk_Version (fuel : nat) (s s' : State) (o : outcome uint32) :
  readChunk fuel s = (o, s') -> Version (vox s') = Version (vox s).
Proof.
  apply (preserves_readChunk
           (fun s s' => Version (vox s') = Version (vox s))).
  - reflexivity.
  - intros s1 s2 s3 H12 H23. now rewrite H23.
  - reflexivity.
  - intros r f f' H. exact H.
Qed.

(** X9. Whatever its outcome, the chunk reader only takes bytes off the
    front of the stream: the stream it leaves is a suffix of the stream it
    was given.  It never reads a byte twice and never skips backwards. *)
Theorem X9_stream_only_advances (fuel : nat) (s s' : State)
    (o : outcome uint32) :
  readChunk fuel s = (o, s') -> exists p, rd s = p ++ rd s'.
Proof. apply readChunk_suffix. Qed.

Lemma X9_stream_only_advances_witness :
  exists p, noteChunk ++ sizeChunk = p ++ skipn 3 sizeChunk.
Proof.
  apply (X9_stream_only_advances 2
           (mkState (noteChunk ++ sizeChunk) newVoxFile)
           (mkState (skipn 3 sizeChunk) newVoxFile) (Done 13)).
  reflexivity.
Defined.

(** X10. No chunk changes the version of the record, whether it is read
    with success or not, and [Decode] never returns a nil record without
    an error: every record it returns, alone or beside an error, has
    version 150. *)
Theorem X10_version_is_kept (input : Reader) :
  (forall fuel s s' o,
     readChunk fuel s = (o, s') -> Version (vox s') = Version (vox s))
  /\ Decode input <> Some (None, None)
  /\ (forall voxelFile err,
        Decode input = Some (Some voxelFile, err) ->
        Version voxelFile = 150).
Proof.
  split; [apply readChunk_Version |]. split.
  - unfold Decode. destruct (decodeHeader input) as [e | [version r]];
      [discriminate |].
    destruct (readChunk _ _) as [[v | e |] s]; discriminate.
  - intros voxelFile err. unfold Decode.
    destruct (decodeHeader input) as [e | [version r]] eqn:E;
      [discriminate |].
    destruct (decodeHeader_inr _ _ _ E) as [_ ->].
    destruct (readChunk _ _) as [[v | e |] s] eqn:Echunk;
      intros H; inversion H; subst;
      apply readChunk_Version in Echunk; exact Echunk.
Qed.

Lemma X10_version_is_kept_witness :
  Version (mkVoxFile 150 20 21 20 [] (instancePalette defaultPalette)) = 150.
Proof.
  apply (proj2 (proj2 (X10_version_is_kept truncatedFile))
           _ (Some (ErrVoxel "XYZI" 0 EOF))).
  reflexivity.
Defined.

(** ** The palette materializer, in general *)

Lemma land_shiftr_byte (v mask n : Z) :
  0 <= n -> Z.shiftr mask n = 255 ->
  Z.shiftr (Z.land v mask) n = (v / 2 ^ n) mod 2 ^ 8.
Proof.
  intros Hn Hmask.
  rewrite Z.shiftr_land, Hmask, (Z.shiftr_div_pow2 v n Hn).
  change 255 with (Z.ones 8). apply Z.land_ones. lia.
Qed.

Lemma instancePalette_entry (value : Z) :
  0 <= value < 2 ^ 32 ->
  let c := mkColor (Z.land value 0x000000ff)
                   (Z.shiftr (Z.land value 0x0000ff00) 8)
                   (Z.shiftr (Z.land value 0x00ff0000) 16)
                   (Z.shiftr (Z.land value 0xff000000) 24) in
  isColor c /\ packColor c = value.
Proof.
  intros Hrange c. subst c. unfold isColor, isByte, packColor. cbn [R G B A].
  change (Z.land value 0x000000ff) with (Z.land value (Z.ones 8)).
  rewrite (Z.land_ones value 8) by lia.
  rewrite (land_shiftr_byte value 0x0000ff00 8) by (reflexivity || lia).
  rewrite (land_shiftr_byte value 0x00ff0000 16) by (reflexivity || lia).
  rewrite (land_shiftr_byte value 0xff000000 24) by (reflexivity || lia).
  assert (H0 : 0 <= value mod 2 ^ 8 < 2 ^ 8) by (apply Z.mod_pos_bound; lia).
  assert (H1 : 0 <= (value / 2 ^ 8) mod 2 ^ 8 < 2 ^ 8)
    by (apply Z.mod_pos_bound; lia).
  assert (H2 : 0 <= (value / 2 ^ 16) mod 2 ^ 8 < 2 ^ 8)
    by (apply Z.mod_pos_bound; lia).
  assert (H3 : 0 <= (value / 2 ^ 24) mod 2 ^ 8 < 2 ^ 8)
    by (apply Z.mod_pos_bound; lia).
  split; [lia |].
  rewrite (lor_shiftl_add _ _ 8) by lia.
  rewrite (lor_shiftl_add _ _ 16) by lia.
  rewrite (lor_shiftl_add _ _ 24) by lia.
  change (2 ^ 8) with 256 in *. change (2 ^ 16) with 65536 in *.
  change (2 ^ 24) with 16777216 in *. change (2 ^ 32) with 4294967296 in *.
  Z.to_euclidean_division_equations. lia.
Qed.

Lemma instancePalette_map (p : list uint32) :
  Forall (fun value => 0 <= value < 2 ^ 32) p ->
  Forall isColor
    (map (fun value =>
            mkColor (Z.land value 0x000000ff)
                    (Z.shiftr (Z.land value 0x0000ff00) 8)
                    (Z.shiftr (Z.land value 0x00ff0000) 16)
                    (Z.shiftr (Z.land value 0xff000000) 24)) p)
  /\ map packColor
       (map (fun value =>
               mkColor (Z.land value 0x000000ff)
                       (Z.shiftr (Z.land value 0x0000ff00) 8)
                       (Z.shiftr (Z.land value 0x00ff0000) 16)
                       (Z.shiftr (Z.land value 0xff000000) 24)) p) = p.
Proof.
  induction 1 as [| value p Hvalue Hp [IHc IHp]]; [now split |].
  destruct (instancePalette_entry value Hvalue) as [Hc Hpack].
  cbn [map]. split; [now constructor |]. now rewrite Hpack, IHp.
Qed.

(** X11. [instancePalette] loses nothing: on a table of 256 values below
    2^32 it returns 256 colors whose channels are all below 256, and
    packing each color again, R in the low byte, then G, B and A, gives
    the table back.  The built-in table is such a table. *)
Theorem X11_instancePalette_round_trip (p : list uint32) :
  length p = 256%nat ->
  Forall (fun value => 0 <= value < 2 ^ 32) p ->
  length (instancePalette p) = 256%nat
  /\ Forall isColor (instancePalette p)
  /\ map packColor (instancePalette p) = p.
Proof.
  intros Hlen Hrange. unfold instancePalette.
  rewrite firstn_all2 by lia.
  destruct (instancePalette_map p Hrange) as [Hc Hpack].
  split; [now rewrite length_map | now split].
Qed.

Lemma defaultPalette_uint32 :
  Forall (fun value => 0 <= value < 2 ^ 32) defaultPalette.
Proof.
  apply Forall_forall. intros value Hin.
  assert (H : forallb (fun v => (0 <=? v) && (v <? 2 ^ 32)) defaultPalette
              = true) by reflexivity.
  rewrite forallb_forall in H. specialize (H value Hin).
  apply andb_true_iff in H. destruct H as [H0 H1].
  apply Z.leb_le in H0. apply Z.ltb_lt in H1. lia.
Qed.

Lemma X11_instancePalette_round_trip_witness :
  map packColor (instancePalette defaultPalette) = defaultPalette.
Proof.
  apply (X11_instancePalette_round_trip defaultPalette).
  - reflexivity.
  - apply defaultPalette_uint32.
Defined.

(** ** More fuel changes nothing *)

Lemma mono_refl {T} (m : M T) : mono m m.
Proof. now intros s o s' H _. Qed.

Lemma mono_bind {T U} (m1 m2 : M T) (k1 k2 : T -> M U) :
  mono m1 m2 -> (forall v, mono (k1 v) (k2 v)) ->
  mono (bind m1 k1) (bind m2 k2).
Proof.
  intros Hm Hk s o s' H Ho. unfold bind in *.
  destruct (m1 s) as [[v | e |] s1] eqn:E.
  - rewrite (Hm _ _ _ E) by discriminate. now apply Hk.
  - rewrite (Hm _ _ _ E) by discriminate. exact H.
  - inversion H; subst. contradiction.
Qed.

Lemma mono_skipContents (chunkIDStr : string) (chunkSize : Z) (f1 : nat) :
  forall f2 totalRead,
    (f1 <= f2)%nat ->
    mono (skipContents f1 chunkIDStr totalRead chunkSize)
         (skipContents f2 chunkIDStr totalRead chunkSize).
Proof.
  induction f1 as [| f1 IH]; intros f2 totalRead Hle.
  - intros s o s' H Ho. cbn [skipContents] in H.
    destruct f2; cbn [skipContents]; destruct (totalRead <? chunkSize);
      try exact H; inversion H; subst; contradiction.
  - destruct f2 as [| f2]; [lia |]. cbn [skipContents].
    destruct (totalRead <? chunkSize); [| apply mono_refl].
    apply mono_bind; [apply mono_refl | intros c; apply IH; lia].
Qed.

Lemma mono_readChildren (c1 c2 : M uint32) (f1 : nat) :
  mono c1 c2 ->
  forall f2 remainingBytes,
    (f1 <= f2)%nat ->
    mono (readChildren f1 c1 remainingBytes)
         (readChildren f2 c2 remainingBytes).
Proof.
  intros Hc. induction f1 as [| f1 IH]; intros f2 remainingBytes Hle.
  - intros s o s' H Ho. cbn [readChildren] in H.
    destruct f2; cbn [readChildren]; destruct (0 <? remainingBytes);
      try exact H; inversion H; subst; contradiction.
  - destruct f2 as [| f2]; [lia |]. cbn [readChildren].
    destruct (0 <? remainingBytes); [| apply mono_refl].
    apply mono_bind; [exact Hc | intros v; apply IH; lia].
Qed.

Lemma mono_readPayload (f1 f2 : nat) (chunkIDStr : string)
    (chunkSize : uint32) :
  (f1 <= f2)%nat ->
  mono (readPayload f1 chunkIDStr chunkSize)
       (readPayload f2 chunkIDStr chunkSize).
Proof.
  intros Hle. unfold readPayload.
  destruct (0 <? chunkSize); [| apply mono_refl].
  destruct (chunkIDStr =? "SIZE")%string; [apply mono_refl |].
  destruct (chunkIDStr =? "XYZI")%string; [apply mono_refl |].
  destruct (chunkIDStr =? "RGBA")%string; [apply mono_refl |].
  now apply mono_skipContents.
Qed.

(** A run of the chunk reader that ends, in success or in an error, is the
    run at every larger fuel. *)
Lemma mono_readChunk (f1 : nat) :
  forall f2, (f1 <= f2)%nat -> mono (readChunk f1) (readChunk f2).
Proof.
  induction f1 as [| f1 IH]; intros f2 Hle.
  - intros s o s' H Ho. inversion H; subst. contradiction.
  - destruct f2 as [| f2]; [lia |]. cbn [readChunk].
    apply mono_bind; [apply mono_refl | intros chunkID].
    apply mono_bind; [apply mono_refl | intros chunkSize].
    apply mono_bind; [apply mono_refl | intros chunkChildrenSize].
    apply mono_bind; [apply mono_readPayload; lia | intros _].
    apply mono_bind; [| intros _; apply mono_refl].
    apply mono_readChildren; [apply IH |]; lia.
Qed.

(** What [Decode] returns, from any run of the chunk reader that ends. *)
Lemma Decode_from_run (fuel : nat) (r : Reader) (s' : State)
    (o : outcome uint32) :
  readChunk fuel (mkState r (setVersion newVoxFile 150)) = (o, s') ->
  o <> OutOfFuel ->
  Decode (header ++ r)
  = Some (Some (setPalette (vox s') (instancePalette defaultPalette)),
          match o with Fail err => Some err | _ => None end).
Proof.
  intros Hrun Ho. rewrite Decode_header.
  destruct (Nat.le_ge_cases fuel (S (length r))) as [Hle | Hge].
  - rewrite (mono_readChunk fuel _ Hle _ _ _ Hrun Ho).
    destruct o; [reflexivity | reflexivity | contradiction].
  - destruct (readChunk (S (length r)) _) as [o1 s1] eqn:E.
    assert (Ho1 : o1 <> OutOfFuel).
    { pose proof (readChunk_total (mkState r (setVersion newVoxFile 150)))
        as Htotal.
      cbn [rd] in Htotal. now rewrite E in Htotal. }
    rewrite (mono_readChunk _ _ Hge _ _ _ E Ho1) in Hrun.
    inversion Hrun; subst.
    destruct o; [reflexivity | reflexivity | contradiction].
Qed.

(** ** The children loop *)

Lemma reported_nonneg (child : M uint32) (steps : list (uint32 * State)) :
  forall s, reads child s steps -> 0 <= reported steps.
Proof.
  induction steps as [| [v s1] steps IH]; intros s H;
    cbn [reads reported fold_right fst] in *; [lia |].
  destruct H as (_ & Hv & Hrest). specialize (IH _ Hrest).
  fold (reported steps). lia.
Qed.

Lemma last_cons_default {X} (l : list X) (a d : X) :
  last (a :: l) d = last l a.
Proof.
  revert a. induction l as [| b l IH]; intros a; [reflexivity |].
  cbn [last] in *. destruct l; [reflexivity | apply IH].
Qed.

Lemma readChildren_zero (fuel : nat) (child : M uint32) (s : State) :
  readChildren fuel child 0 s = (Done tt, s).
Proof. destruct fuel; reflexivity. Qed.

Lemma readChildren_exact (child : M uint32)
    (steps : list (uint32 * State)) :
  forall fuel s,
    reads child s steps -> reported steps < 2 ^ 32 ->
    (length steps <= fuel)%nat ->
    readChildren fuel child (reported steps) s
    = (Done tt, finalState s steps).
Proof.
  induction steps as [| [v s1] steps IH]; intros fuel s Hreads Hlt Hfuel.
  - apply readChildren_zero.
  - cbn [reads] in Hreads. destruct Hreads as (Hchild & Hv & Hrest).
    pose proof (reported_nonneg _ _ _ Hrest) as Hnonneg.
    cbn [reported fold_right fst] in *. fold (reported steps) in *.
    destruct fuel as [| fuel]; [cbn [length] in Hfuel; lia |].
    cbn [readChildren].
    replace (0 <? v + reported steps) with true
      by (symmetry; apply Z.ltb_lt; lia).
    rewrite (bind_Done _ _ _ _ _ Hchild).
    replace (wrap32 (v + reported steps - v)) with (reported steps)
      by (unfold wrap32; rewrite Z.mod_small; lia).
    rewrite IH; [| exact Hrest | lia | cbn [length] in Hfuel; lia].
    unfold finalState. cbn [map snd]. now rewrite last_cons_default.
Qed.

Lemma readChildren_Fail (fuel : nat) (child : M uint32)
    (remainingBytes : uint32) (s s' : State) (e : error) :
  0 < remainingBytes -> child s = (Fail e, s') ->
  readChildren (S fuel) child remainingBytes s = (Fail e, s').
Proof.
  intros Hpos Hchild. cbn [readChildren].
  replace (0 <? remainingBytes) with true by (symmetry; now apply Z.ltb_lt).
  now rewrite (bind_Fail _ _ _ _ _ Hchild).
Qed.

(** A chunk without payload: the header, then the children loop. *)
Lemma readChunk_container (fuel : nat) (a b c d k0 k1 k2 k3 : byte)
    (r : Reader) (f : VoxFile) :
  readChunk (S fuel)
    (mkState ([a; b; c; d] ++ zero4 ++ [k0; k1; k2; k3] ++ r) f)
  = (readChildren fuel (readChunk fuel) (Binary.Uint32 [k0; k1; k2; k3]) ;;;
     ret 12) (mkState r f).
Proof.
  unfold zero4. read_header. rewrite !Uint32_zero.
  cbn [Z.ltb Z.compare]. now rewrite bind_ret.
Qed.

(** X12. A chunk without payload whose children, read one after the other,
    report positive sizes that add up to its declared children size, is
    read with success: the loop reads exactly these children, in order,
    and stops; the chunk reports 12 and leaves the state the last child
    left. *)
Theorem X12_children_budget_met (fuel : nat) (a b c d k0 k1 k2 k3 : byte)
    (r : Reader) (f : VoxFile) (steps : list (uint32 * State)) :
  reads (readChunk fuel) (mkState r f) steps ->
  reported steps = Binary.Uint32 [k0; k1; k2; k3] ->
  (length steps <= fuel)%nat ->
  readChunk (S fuel)
    (mkState ([a; b; c; d] ++ zero4 ++ [k0; k1; k2; k3] ++ r) f)
  = (Done 12, finalState (mkState r f) steps).
Proof.
  intros Hreads Hsum Hfuel. rewrite readChunk_container, <- Hsum.
  pose proof (Uint32_range [k0; k1; k2; k3]) as Hrange.
  rewrite (bind_Done _ _ _ _ _
             (readChildren_exact _ steps fuel _ Hreads ltac:(lia) Hfuel)).
  reflexivity.
Qed.

Lemma X12_children_budget_met_witness :
  readChunk 3
    (mkState (list_byte_of_string "MAIN" ++ zero4 ++ [x30; x00; x00; x00]
              ++ sizeChunk ++ sizeChunk) newVoxFile)
  = (Done 12, mkState [] (setSize newVoxFile 20 21 20)).
Proof.
  apply (X12_children_budget_met 2 "M" "A" "I" "N" x30 x00 x00 x00
           (sizeChunk ++ sizeChunk) newVoxFile
           [(24, mkState sizeChunk (setSize newVoxFile 20 21 20));
            (24, mkState [] (setSize newVoxFile 20 21 20))]).
  - cbn [reads]. repeat split; reflexivity.
  - reflexivity.
  - cbn. lia.
Defined.

Lemma readChunk_nest_Fail (parents : list (quad * quad)) :
  forall fuel r f e s',
    Forall (fun p => Binary.Uint32 (bytesOf (snd p)) <> 0) parents ->
    readChunk fuel (mkState r f) = (Fail e, s') ->
    readChunk (length parents + fuel) (mkState (nest parents r) f)
    = (Fail e, s').
Proof.
  induction parents as [| [[[[a b] c] d] [[[k0 k1] k2] k3]] parents IH];
    intros fuel r f e s' Hpos Hfail; [exact Hfail |].
  inversion Hpos as [| p ps Hk Hrest]; subst.
  change (Binary.Uint32 [k0; k1; k2; k3] <> 0) in Hk.
  cbn [nest bytesOf length Nat.add]. rewrite readChunk_container.
  specialize (IH fuel r f e s' Hrest Hfail).
  pose proof (Uint32_range [k0; k1; k2; k3]) as Hrange.
  assert (Hpos' : 0 < Binary.Uint32 [k0; k1; k2; k3]) by lia.
  assert (Hfuel : exists n, (length parents + fuel = S n)%nat).
  { destruct (length parents + fuel)%nat as [| n] eqn:E; [| now exists n].
    try rewrite E in IH. discriminate. }
  destruct Hfuel as [n Hn]. rewrite Hn in *.
  now rewrite (bind_Fail _ _ _ _ _
                 (readChildren_Fail n _ _ _ _ _ Hpos' IH)).
Qed.

(** X13. An error is passed up unchanged: when a chunk fails, every chunk
    around it (here chunks without payload that declare children, nested
    to any depth) fails with the same error and the same state, and
    [Decode] of the file returns this error beside the record as the
    failing chunk left it, with the default palette. *)
Theorem X13_error_passed_up (parents : list (quad * quad)) (fuel : nat)
    (r : Reader) (e : error) (s' : State) :
  Forall (fun p => Binary.Uint32 (bytesOf (snd p)) <> 0) parents ->
  readChunk fuel (mkState r (setVersion newVoxFile 150)) = (Fail e, s') ->
  readChunk (length parents + fuel)
    (mkState (nest parents r) (setVersion newVoxFile 150))
  = (Fail e, s')
  /\ Decode (header ++ nest parents r)
     = Some (Some (setPalette (vox s') (instancePalette defaultPalette)),
             Some e).
Proof.
  intros Hpos Hfail.
  pose proof (readChunk_nest_Fail parents fuel r _ e s' Hpos Hfail) as H.
  split; [exact H |].
  now rewrite (Decode_from_run _ _ _ _ H) by discriminate.
Qed.

Lemma X13_error_passed_up_witness :
  Decode (header
          ++ nest [(("M", "A", "I", "N"), (x30, x00, x00, x00));
                   (("N", "O", "D", "E"), (x18, x00, x00, x00))]%byte
               (chunkHeader "SIZE" [x08; x00; x00; x00] zero4))
  = Some (Some (mkVoxFile 150 0 0 0 [] (instancePalette defaultPalette)),
          Some (ErrSizeNot12 "SIZE" 8)).
Proof.
  refine (proj2 (X13_error_passed_up
                   [(("M", "A", "I", "N"), (x30, x00, x00, x00));
                    (("N", "O", "D", "E"), (x18, x00, x00, x00))]%byte
                   1 (chunkHeader "SIZE" [x08; x00; x00; x00] zero4)
                   (ErrSizeNot12 "SIZE" 8)
                   (mkState [] (setVersion newVoxFile 150)) _ _)).
  - repeat constructor; vm_compute; discriminate.
  - reflexivity.
Defined.

(** ** Whole files *)

Lemma readChunk_SIZE_leaf (fuel : nat)
    (x0 x1 x2 x3 y0 y1 y2 y3 z0 z1 z2 z3 : byte) (r : Reader)
    (f : VoxFile) :
  readChunk (S fuel)
    (mkState (chunkHeader "SIZE" [x0c; x00; x00; x00] zero4
              ++ [x0; x1; x2; x3] ++ [y0; y1; y2; y3] ++ [z0; z1; z2; z3]
              ++ r) f)
  = (Done 24,
     mkState r (setSize f (Binary.Uint32 [x0; x1; x2; x3])
                          (Binary.Uint32 [y0; y1; y2; y3])
                          (Binary.Uint32 [z0; z1; z2; z3]))).
Proof.
  unfold zero4. rewrite readChunk_SIZE, Uint32_zero.
  destruct fuel; reflexivity.
Qed.

Lemma readChunk_XYZI_leaf (fuel : nat) (s0 s1 s2 s3 n0 n1 n2 n3 : byte)
    (tail : Reader) (f : VoxFile) :
  let N := Z.to_nat (Binary.Uint32 [n0; n1; n2; n3]) in
  Binary.Uint32 [s0; s1; s2; s3] <> 0 -> (4 * N <= length tail)%nat ->
  readChunk (S fuel)
    (mkState (chunkHeader "XYZI" [s0; s1; s2; s3] zero4
              ++ [n0; n1; n2; n3] ++ tail) f)
  = (Done (wrap32 (Binary.Uint32 [s0; s1; s2; s3] + 12)),
     mkState (skipn (4 * N) tail) (setVoxels f (voxelsOf N tail))).
Proof.
  intros N Hnz Hlen. unfold zero4. rewrite readChunk_XYZI by exact Hnz.
  rewrite (bind_Done _ _ _ _ _ (readVoxels_enough "XYZI" N 0 tail f Hlen)).
  rewrite bind_update, Uint32_zero. destruct fuel; reflexivity.
Qed.

(** X14. The file of the repository's test, in general: a header, a root
    chunk MAIN without payload, a SIZE chunk and an XYZI chunk declaring N
    voxels that are there.  When the children size of MAIN is the sum of
    what the two children report, 24 and the declared XYZI size plus 12,
    [Decode] returns without error the record with version 150, the three
    extents of the SIZE payload, the N voxels in file order and the default
    palette.  The declared XYZI size only has to be positive: it is not
    checked against N. *)
Theorem X14_size_and_voxels_file
    (x0 x1 x2 x3 y0 y1 y2 y3 z0 z1 z2 z3 : byte)
    (s0 s1 s2 s3 c0 c1 c2 c3 n0 n1 n2 n3 : byte) (tail : Reader) :
  let N := Z.to_nat (Binary.Uint32 [n0; n1; n2; n3]) in
  Binary.Uint32 [s0; s1; s2; s3] <> 0 ->
  Binary.Uint32 [c0; c1; c2; c3] = 36 + Binary.Uint32 [s0; s1; s2; s3] ->
  (4 * N <= length tail)%nat ->
  Decode (header
          ++ chunkHeader "MAIN" zero4 [c0; c1; c2; c3]
          ++ chunkHeader "SIZE" [x0c; x00; x00; x00] zero4
          ++ [x0; x1; x2; x3] ++ [y0; y1; y2; y3] ++ [z0; z1; z2; z3]
          ++ chunkHeader "XYZI" [s0; s1; s2; s3] zero4
          ++ [n0; n1; n2; n3] ++ tail)
  = Some (Some (mkVoxFile 150 (Binary.Uint32 [x0; x1; x2; x3])
                  (Binary.Uint32 [y0; y1; y2; y3])
                  (Binary.Uint32 [z0; z1; z2; z3])
                  (voxelsOf N tail) (instancePalette defaultPalette)),
          None).
Proof.
  intros N Hnz Hsum Hlen. unfold uint32 in Hsum.
  pose proof (Uint32_range [c0; c1; c2; c3]) as Hc.
  pose proof (Uint32_range [s0; s1; s2; s3]) as Hs.
  set (xyzi := chunkHeader "XYZI" [s0; s1; s2; s3] zero4
               ++ [n0; n1; n2; n3] ++ tail).
  set (f0 := setVersion newVoxFile 150).
  set (f1 := setSize f0 (Binary.Uint32 [x0; x1; x2; x3])
               (Binary.Uint32 [y0; y1; y2; y3])
               (Binary.Uint32 [z0; z1; z2; z3])).
  set (steps := [(24, mkState xyzi f1);
                 (Binary.Uint32 [s0; s1; s2; s3] + 12,
                  mkState (skipn (4 * N) tail)
                    (setVoxels f1 (voxelsOf N tail)))]).
  assert (Hwrap : wrap32 (Binary.Uint32 [s0; s1; s2; s3] + 12)
                  = Binary.Uint32 [s0; s1; s2; s3] + 12)
    by (unfold wrap32; rewrite Z.mod_small; lia).
  pose proof (readChunk_XYZI_leaf 1 s0 s1 s2 s3 n0 n1 n2 n3 tail f1
                Hnz Hlen) as Hxyzi.
  rewrite Hwrap in Hxyzi.
  assert (Hrun : readChunk 3
                   (mkState (chunkHeader "MAIN" zero4 [c0; c1; c2; c3]
                             ++ chunkHeader "SIZE" [x0c; x00; x00; x00] zero4
                             ++ [x0; x1; x2; x3] ++ [y0; y1; y2; y3]
                             ++ [z0; z1; z2; z3] ++ xyzi) f0)
                 = (Done 12, finalState (mkState xyzi f1) steps)).
  { change (chunkHeader "MAIN" zero4 [c0; c1; c2; c3]
            ++ chunkHeader "SIZE" [x0c; x00; x00; x00] zero4
            ++ [x0; x1; x2; x3] ++ [y0; y1; y2; y3]
            ++ [z0; z1; z2; z3] ++ xyzi)
      with (["M"; "A"; "I"; "N"]%byte ++ zero4 ++ [c0; c1; c2; c3]
            ++ chunkHeader "SIZE" [x0c; x00; x00; x00] zero4
            ++ [x0; x1; x2; x3] ++ [y0; y1; y2; y3]
            ++ [z0; z1; z2; z3] ++ xyzi).
    rewrite readChunk_container.
    replace (Binary.Uint32 [c0; c1; c2; c3]) with (reported steps)
      by (subst steps; cbn [reported fold_right fst]; lia).
    rewrite (bind_Done _ _ _ _ _
               (readChildren_exact (readChunk 2) steps 2 _
                  ltac:(subst steps; cbn [reads];
                        split; [apply readChunk_SIZE_leaf |];
                        split; [lia |]; split; [exact Hxyzi |];
                        split; [lia | exact I])
                  ltac:(subst steps; cbn [reported fold_right fst]; lia)
                  ltac:(subst steps; cbn [length]; lia))).
    reflexivity. }
  rewrite (Decode_from_run _ _ _ _ Hrun) by discriminate. reflexivity.
Qed.

Lemma X14_size_and_voxels_file_witness :
  Decode (header
          ++ chunkHeader "MAIN" zero4 [x2c; x00; x00; x00]
          ++ chunkHeader "SIZE" [x0c; x00; x00; x00] zero4
          ++ [x14; x00; x00; x00] ++ [x15; x00; x00; x00]
          ++ [x14; x00; x00; x00]
          ++ chunkHeader "XYZI" [x08; x00; x00; x00] zero4
          ++ [x01; x00; x00; x00] ++ [x01; x02; x03; x04])
  = Some (Some (mkVoxFile 150 20 21 20 [mkVoxel 1 2 3 4]
                  (instancePalette defaultPalette)),
          None).
Proof.
  apply (X14_size_and_voxels_file
           x14 x00 x00 x00 x15 x00 x00 x00 x14 x00 x00 x00
           x08 x00 x00 x00 x2c x00 x00 x00 x01 x00 x00 x00
           [x01; x02; x03; x04]).
  - vm_compute. discriminate.
  - reflexivity.
  - vm_compute. lia.
Defined.

(** X15. The children size is a budget that must be met exactly.  A root
    chunk without payload that declares a children size other than 0 and
    12 and is followed by one chunk without payload and children, then the
    end of the input, makes [Decode] fail with the chunk-ID error: after
    the child has reported 12 the remainder is not 0 (below 12 the
    unsigned subtraction wraps around instead of stopping the loop), and
    the loop asks for another chunk. *)
Theorem X15_children_budget_missed (a b c d k0 k1 k2 k3 e f g h : byte) :
  let children := Binary.Uint32 [k0; k1; k2; k3] in
  children <> 0 -> children <> 12 ->
  0 < wrap32 (children - 12)
  /\ (children < 12 -> wrap32 (children - 12) = 2 ^ 32 - (12 - children))
  /\ Decode (header ++ [a; b; c; d] ++ zero4 ++ [k0; k1; k2; k3]
                    ++ [e; f; g; h] ++ zero4 ++ zero4)
     = Some (Some (mkVoxFile 150 0 0 0 []
                     (instancePalette defaultPalette)),
             Some (ErrChunkID EOF)).
Proof.
  intros children Hnz Hne.
  pose proof (Uint32_range [k0; k1; k2; k3]) as Hrange.
  fold children in Hrange.
  assert (Hunder : children < 12 ->
                   wrap32 (children - 12) = 2 ^ 32 - (12 - children)).
  { intros Hlt. unfold wrap32.
    replace (children - 12) with (children - 12 + 2 ^ 32 + (-1) * 2 ^ 32)
      by lia.
    rewrite Z.mod_add by lia. rewrite Z.mod_small; lia. }
  assert (Hwrap : 0 < wrap32 (children - 12)).
  { destruct (Z.lt_ge_cases children 12) as [Hlt | Hge].
    - rewrite (Hunder Hlt). lia.
    - unfold wrap32. rewrite Z.mod_small; lia. }
  split; [exact Hwrap |]. split; [exact Hunder |].
  - assert (Hrun : readChunk 3
                     (mkState ([a; b; c; d] ++ zero4 ++ [k0; k1; k2; k3]
                               ++ [e; f; g; h] ++ zero4 ++ zero4)
                        (setVersion newVoxFile 150))
                   = (Fail (ErrChunkID EOF),
                      mkState [] (setVersion newVoxFile 150))).
    { rewrite readChunk_container. fold children.
      cbn [readChildren].
      replace (0 <? children) with true by (symmetry; apply Z.ltb_lt; lia).
      rewrite bind_assoc.
      assert (Hleaf : readChunk 2
                        (mkState ([e; f; g; h] ++ zero4 ++ zero4)
                           (setVersion newVoxFile 150))
                      = (Done 12, mkState [] (setVersion newVoxFile 150)))
        by reflexivity.
      rewrite (bind_Done _ _ _ _ _ Hleaf).
      replace (0 <? wrap32 (children - 12)) with true
        by (symmetry; now apply Z.ltb_lt).
      reflexivity. }
    rewrite (Decode_from_run _ _ _ _ Hrun) by discriminate. reflexivity.
Qed.

Lemma X15_children_budget_missed_witness :
  Decode (header ++ list_byte_of_string "MAIN" ++ zero4
                 ++ [x01; x00; x00; x00]
                 ++ list_byte_of_string "LEAF" ++ zero4 ++ zero4)
  = Some (Some (mkVoxFile 150 0 0 0 [] (instancePalette defaultPalette)),
          Some (ErrChunkID EOF)).
Proof.
  refine (proj2 (proj2 (X15_children_budget_missed
                          "M" "A" "I" "N" x01 x00 x00 x00 "L" "E" "A" "F"
                          _ _))).
  - vm_compute. discriminate.
  - vm_compute. discriminate.
Defined.

(** ** Data after the chunks *)










Lemma skipContents_done (fuel : nat) (chunkIDStr : string)
    (totalRead chunkSize : Z) (s : State) :
  chunkSize <= totalRead ->
  skipContents fuel chunkIDStr totalRead chunkSize s = (Done tt, s).
Proof.
  intros Hle. destruct fuel; cbn [skipContents];
    (replace (totalRead <? chunkSize) with false
       by (symmetry; apply Z.ltb_ge; lia));
    reflexivity.
Qed.








(** ** The skip loop at the end of the input *)

(** The skip loop with at least the bytes of the payload at hand: [n] reads,
    the last of which may be cut by the end of the stream. *)
Lemma skipContents_exact (chunkIDStr : string) (chunkSize : Z) (n : nat) :
  forall fuel totalRead r f,
    (n <= fuel)%nat -> chunkSize - totalRead <= Z.of_nat (length r) ->
    chunkSize <= totalRead + 4 * Z.of_nat n ->
    (n = 0%nat \/ totalRead + 4 * (Z.of_nat n - 1) < chunkSize) ->
    skipContents fuel chunkIDStr totalRead chunkSize (mkState r f)
    = (Done tt, mkState (skipn (4 * n) r) f).
Proof.
  induction n as [| n IH]; intros fuel totalRead r f Hfuel Hlen Hle Hlt.
  - apply skipContents_done. lia.
  - destruct Hlt as [Hlt | Hlt]; [discriminate |].
    destruct fuel as [| fuel]; [lia |].
    destruct (Nat.le_gt_cases 4 (length r)) as [Hfour | Hshort].
    + destruct r as [| a [| b [| c [| d r]]]]; cbn [length] in Hfour;
        try lia.
      cbn [skipContents].
      replace (totalRead <? chunkSize) with true
        by (symmetry; apply Z.ltb_lt; lia).
      rewrite bind_Read4. cbn [length] in *.
      replace (4 * S n)%nat with (S (S (S (S (4 * n))))) by lia.
      cbn [skipn]. apply IH; lia.
    + destruct r as [| a r]; [cbn [length] in Hlen; lia |].
      cbn [skipContents].
      replace (totalRead <? chunkSize) with true
        by (symmetry; apply Z.ltb_lt; lia).
      unfold bind at 1. unfold try. cbn [rd vox Bufio.Read].
      rewrite firstn_all2, !skipn_all2 by lia.
      apply skipContents_done. lia.
Qed.

(** The skip loop with fewer bytes than the payload at hand. *)
Lemma skipContents_short (chunkIDStr : string) (chunkSize : Z) (fuel : nat) :
  forall totalRead r f,
    (length r < fuel)%nat -> Z.of_nat (length r) < chunkSize - totalRead ->
    skipContents fuel chunkIDStr totalRead chunkSize (mkState r f)
    = (Fail (ErrContents chunkIDStr EOF), mkState [] f).
Proof.
  induction fuel as [| fuel IH]; intros totalRead r f Hfuel Hlen; [lia |].
  cbn [skipContents].
  replace (totalRead <? chunkSize) with true
    by (symmetry; apply Z.ltb_lt; lia).
  destruct r as [| a r]; [reflexivity |].
  unfold bind at 1. unfold try. cbn [rd vox Bufio.Read].
  pose proof (length_firstn 4 (a :: r)) as Hc.
  pose proof (length_skipn 4 (a :: r)) as Hr.
  apply IH; cbn [length] in *; lia.
Qed.

(** X17. A chunk with an identifier other than SIZE, XYZI and RGBA, a
    payload of declared size S and no children is read with success
    exactly when S bytes at least are left after its header.  The skip
    loop then takes 4-byte groups off the stream, as many as cover S, the
    last one cut if the input ends in it, touches nothing in the record,
    and S + 12 is reported.  With fewer than S bytes left the chunk fails
    with the contents error and the stream is drained. *)
Theorem X17_unknown_chunk_skipped (fuel : nat)
    (a b c d s0 s1 s2 s3 : byte) (r : Reader) (f : VoxFile) :
  let chunkIDStr := string_of_list_byte [a; b; c; d] in
  let chunkSize := Binary.Uint32 [s0; s1; s2; s3] in
  let groups := Z.to_nat ((chunkSize + 3) / 4) in
  let chunk := [a; b; c; d] ++ [s0; s1; s2; s3] ++ zero4 ++ r in
  (chunkIDStr =? "SIZE")%string = false ->
  (chunkIDStr =? "XYZI")%string = false ->
  (chunkIDStr =? "RGBA")%string = false ->
  chunkSize <> 0 -> (length r < fuel)%nat ->
  (chunkSize <= Z.of_nat (length r) ->
   readChunk (S fuel) (mkState chunk f)
   = (Done (wrap32 (chunkSize + 12)), mkState (skipn (4 * groups) r) f))
  /\ (Z.of_nat (length r) < chunkSize ->
      readChunk (S fuel) (mkState chunk f)
      = (Fail (ErrContents chunkIDStr EOF), mkState [] f)).
Proof.
  intros chunkIDStr chunkSize groups chunk HSIZE HXYZI HRGBA Hnz Hfuel.
  pose proof (Uint32_range [s0; s1; s2; s3]) as Hrange.
  fold chunkSize in Hrange.
  assert (Hgroups : Z.of_nat groups = (chunkSize + 3) / 4)
    by (subst groups; apply Z2Nat.id, Z.div_pos; lia).
  pose proof (Z.div_mod (chunkSize + 3) 4 ltac:(lia)) as Hdiv.
  pose proof (Z.mod_pos_bound (chunkSize + 3) 4 ltac:(lia)) as Hmod.
  assert (Hchunk : readChunk (S fuel) (mkState chunk f)
                   = (skipContents fuel chunkIDStr 0 chunkSize ;;;
                      ret (wrap32 (chunkSize + 12))) (mkState r f)).
  { subst chunk. unfold zero4. read_header.
    change (string_of_list_byte (array4 [a; b; c; d])) with chunkIDStr.
    fold chunkSize. rewrite HSIZE, HXYZI, HRGBA, Uint32_zero.
    replace (0 <? chunkSize) with true by (symmetry; apply Z.ltb_lt; lia).
    apply bind_ext. intros [] st. unfold bind.
    now rewrite readChildren_zero. }
  rewrite Hchunk. split; intros Hlen.
  - now rewrite (bind_Done _ _ _ _ _
                   (skipContents_exact chunkIDStr chunkSize groups fuel 0 r f
                      ltac:(lia) ltac:(lia) ltac:(lia) ltac:(right; lia))).
  - now rewrite (bind_Fail _ _ _ _ _
                   (skipContents_short chunkIDStr chunkSize fuel 0 r f
                      Hfuel ltac:(lia))).
Qed.

Lemma X17_unknown_chunk_skipped_witness :
  readChunk 3
    (mkState (list_byte_of_string "NOTE" ++ [x05; x00; x00; x00] ++ zero4
              ++ [x01; x02; x03; x04; x05; x06]) newVoxFile)
  = (Done 17, mkState [] newVoxFile)
  /\ readChunk 3
       (mkState (list_byte_of_string "NOTE" ++ [x05; x00; x00; x00] ++ zero4
                 ++ [x01; x02]) newVoxFile)
     = (Fail (ErrContents "NOTE" EOF), mkState [] newVoxFile).
Proof.
  split.
  - refine (proj1 (X17_unknown_chunk_skipped 7 "N" "O" "T" "E"
                     x05 x00 x00 x00 [x01; x02; x03; x04; x05; x06]
                     newVoxFile _ _ _ _ _) _);
      try reflexivity; try (vm_compute; discriminate); cbn; lia.
  - refine (proj2 (X17_unknown_chunk_skipped 3 "N" "O" "T" "E"
                     x05 x00 x00 x00 [x01; x02] newVoxFile _ _ _ _ _) _);
      try reflexivity; try (vm_compute; discriminate); cbn; lia.
Defined.

(** ** DecodeFile and the repository's test *)

Lemma Decode_Version (input : Reader) (voxelFile : VoxFile)
    (err : option error) :
  Decode input = Some (Some voxelFile, err) -> Version voxelFile = 150.
Proof.
  unfold Decode.
  destruct (decodeHeader input) as [e | [version r]] eqn:E; [discriminate |].
  destruct (decodeHeader_inr _ _ _ E) as [_ ->].
  destruct (readChunk _ _) as [[v | e |] s] eqn:Echunk;
    intros H; inversion H; subst;
    apply readChunk_Version in Echunk; exact Echunk.
Qed.

Lemma instancePalette_default_first :
  exists rest,
    instancePalette defaultPalette
    = mkColor 0 0 0 0 :: mkColor 255 255 255 255
      :: mkColor 255 255 204 255 :: rest.
Proof. eexists. reflexivity. Qed.

(** X18. [TestFileLoad] cannot pass, whatever file is at the path it
    loads.  It stops with [t.Fatalf] when the file cannot be opened or
    decoded; otherwise it runs to its end, never reports the version or
    the colors #0 and #1, and always reports color #2: the test expects
    (0xff, 0xcc, 0xff, 0xff) where [instancePalette] gives (0xff, 0xff,
    0xcc, 0xff).  On a file with the extents and the 334 voxels the test
    expects, color #2 is its only report. *)
Theorem X18_test_cannot_pass (fs : FileSystem) :
  (TestFileLoad fs = Some Fatal
   \/ exists failures,
        TestFileLoad fs = Some (Errors failures)
        /\ In (BadColor 2) failures
        /\ ~ In (BadColor 0) failures /\ ~ In (BadColor 1) failures
        /\ forall version, ~ In (BadVersion version) failures)
  /\ (fs voxfileCharacter = Some swordFile ->
      TestFileLoad fs = Some (Errors [BadColor 2])).
Proof.
  split.
  - unfold TestFileLoad, DecodeFile.
    destruct (fs voxfileCharacter) as [contents |]; [| now left].
    pose proof (Decode_total contents) as Htotal.
    destruct (Decode contents) as [[[voxFile |] [err |]] |] eqn:E;
      try (now left); try contradiction.
    right. cbn [option_map].
    rewrite (Decode_Palette _ _ _ E), (Decode_Version _ _ _ E).
    destruct instancePalette_default_first as [rest ->].
    eexists. split; [reflexivity |].
    change (150 =? 150) with true.
    change (colorIs (mkColor 0 0 0 0) 0 0 0 0) with true.
    change (colorIs (mkColor 255 255 255 255) 255 255 255 255) with true.
    change (colorIs (mkColor 255 255 204 255) 255 204 255 255) with false.
    cbn [check app].
    destruct (SizeX voxFile =? 20), (SizeY voxFile =? 21),
             (SizeZ voxFile =? 20),
             (length (Voxels voxFile) =? 334)%nat;
      cbn [check app In];
      (split; [tauto |]); repeat split; intros; intuition discriminate.
  - intros Hfile. unfold TestFileLoad, DecodeFile. rewrite Hfile.
    reflexivity.
Qed.

Lemma X18_test_cannot_pass_witness :
  TestFileLoad (fun fn => if (fn =? voxfileCharacter)%string
                          then Some swordFile else None)
  = Some (Errors [BadColor 2]).
Proof.
  apply (proj2 (X18_test_cannot_pass _)). reflexivity.
Defined.

(** ** The failures of the header *)

Lemma decodeHeader_magic (input : Reader) :
  input <> [] -> firstn 4 input <> list_byte_of_string "VOX " ->
  decodeHeader input = inl (ErrMagic (array4 (firstn 4 input))).
Proof.
  intros Hne Hmagic. unfold decodeHeader.
  destruct input as [| a [| b [| c [| d r]]]];
    try contradiction; try reflexivity.
  cbn [Bufio.Read firstn skipn length array4 app nth Nat.eqb negb orb].
  destruct (Byte.eqb a "V") eqn:Ha; cbn [negb orb]; [| reflexivity].
  destruct (Byte.eqb b "O") eqn:Hb; cbn [negb orb]; [| reflexivity].
  destruct (Byte.eqb c "X") eqn:Hc; cbn [negb orb]; [| reflexivity].
  destruct (Byte.eqb d " ") eqn:Hd; cbn [negb orb]; [| reflexivity].
  apply Byte.byte_dec_bl in Ha, Hb, Hc, Hd. subst a b c d.
  exfalso. apply Hmagic. reflexivity.
Qed.

Lemma decodeHeader_version_short (v : Reader) :
  (length v < 4)%nat ->
  decodeHeader (list_byte_of_string "VOX " ++ v)
  = inl (ErrVersionRead match v with
                        | [] => EOF
                        | _ :: _ => ErrUnexpectedEOF
                        end).
Proof.
  intros Hlen.
  do 4 (destruct v as [| ? v]; [reflexivity |]).
  cbn [length] in Hlen. lia.
Qed.

(** X19. The failures of the header, besides the version mismatch.  On an
    empty input [Decode] fails with the read error of the signature; on an
    input that does not start with the 4 bytes "VOX ", be it shorter than
    4 bytes, with the signature error, which carries the bytes read,
    padded with zero bytes; on a signature followed by fewer than 4 bytes,
    with the read error of the version, EOF when nothing follows.  No
    record is returned in any of these cases. *)
Theorem X19_header_failures (input : Reader) :
  Decode [] = Some (None, Some (ErrNotVox EOF))
  /\ (input <> [] -> firstn 4 input <> list_byte_of_string "VOX " ->
      Decode input = Some (None, Some (ErrMagic (array4 (firstn 4 input)))))
  /\ ((length input < 4)%nat ->
      Decode (list_byte_of_string "VOX " ++ input)
      = Some (None,
              Some (ErrVersionRead match input with
                                   | [] => EOF
                                   | _ :: _ => ErrUnexpectedEOF
                                   end))).
Proof.
  split; [reflexivity |]. split.
  - intros Hne Hmagic. unfold Decode.
    now rewrite decodeHeader_magic.
  - intros Hlen. unfold Decode. now rewrite decodeHeader_version_short.
Qed.

Lemma X19_header_failures_witness :
  Decode (list_byte_of_string "VO")
  = Some (None, Some (ErrMagic ["V"; "O"; x00; x00]%byte))
  /\ Decode (list_byte_of_string "VOX " ++ [x96; x00])
     = Some (None, Some (ErrVersionRead ErrUnexpectedEOF)).
Proof.
  split.
  - apply (proj1 (proj2 (X19_header_failures (list_byte_of_string "VO"))));
      discriminate.
  - apply (proj2 (proj2 (X19_header_failures [x96; x00]))). cbn. lia.
Defined.
